(** * tools/build_atlases.py: a shallow embedding and its properties

    The atlas builder reads one folder per atlas, normalises an optional
    [config.json] into a canonical configuration, validates it, composes the
    slot images on a canvas and writes the canvas with a manifest.  The
    functions below follow [src/tools/build_atlases.py] one by one and keep
    its names; Python values, exceptions, the file system and the imaging
    library are modelled explicitly. *)

From Stdlib Require Import ZArith QArith Qround List Bool String Ascii Lia.
From Stdlib Require Import Permutation Sorted Decimal DecimalPos DecimalZ.
Import ListNotations.
Open Scope Z_scope.

#[local] Set Warnings "-register-all".

(* ====================================================================== *)
(** * Part I: the model                                                    *)
(* ====================================================================== *)

(** ** Python strings

    A Python [str] is a sequence of Unicode code points. *)

Definition pystr := list Z.

(** An ASCII literal of the source as a [pystr]. *)
Definition py (s : string) : pystr :=
  map (fun c => Z.of_N (N_of_ascii c)) (list_ascii_of_string s).

Fixpoint str_eqb (a b : pystr) : bool :=
  match a, b with
  | [], [] => true
  | x :: a', y :: b' => (x =? y) && str_eqb a' b'
  | _, _ => false
  end.

(** [s.startswith(p)] *)
Fixpoint startswith (s p : pystr) {struct p} : bool :=
  match p, s with
  | [], _ => true
  | c :: p', d :: s' => (c =? d) && startswith s' p'
  | _ :: _, [] => false
  end.

(** [sub in s] on two strings: [sub] occurs in [s] as a contiguous run. *)
Fixpoint str_in (sub s : pystr) : bool :=
  startswith s sub ||
  match s with
  | [] => false
  | _ :: s' => str_in sub s'
  end.

(** Decimal digits of [str(i)] / [f"{i}"] for an [int]. *)
Fixpoint uint_chars (u : Decimal.uint) : pystr :=
  match u with
  | Nil => []
  | D0 u => 48 :: uint_chars u
  | D1 u => 49 :: uint_chars u
  | D2 u => 50 :: uint_chars u
  | D3 u => 51 :: uint_chars u
  | D4 u => 52 :: uint_chars u
  | D5 u => 53 :: uint_chars u
  | D6 u => 54 :: uint_chars u
  | D7 u => 55 :: uint_chars u
  | D8 u => 56 :: uint_chars u
  | D9 u => 57 :: uint_chars u
  end.

Definition str_of_int (z : Z) : pystr :=
  match Z.to_int z with
  | Decimal.Pos u => uint_chars u
  | Decimal.Neg u => 45 :: uint_chars u
  end.

(** [s.encode('utf-8')]: the bytes of a string; a surrogate code point
    (which [os.listdir] produces for undecodable names) cannot be encoded
    and raises [UnicodeEncodeError], here [None]. *)
Definition encode_char (c : Z) : option (list Z) :=
  if c <? 0 then None
  else if c <? 128 then Some [c]
  else if c <? 2048 then
    Some [Z.lor 192 (Z.shiftr c 6); Z.lor 128 (Z.land c 63)]
  else if c <? 65536 then
    if (55296 <=? c) && (c <=? 57343) then None
    else Some [Z.lor 224 (Z.shiftr c 12);
               Z.lor 128 (Z.land (Z.shiftr c 6) 63);
               Z.lor 128 (Z.land c 63)]
  else if c <? 1114112 then
    Some [Z.lor 240 (Z.shiftr c 18);
          Z.lor 128 (Z.land (Z.shiftr c 12) 63);
          Z.lor 128 (Z.land (Z.shiftr c 6) 63);
          Z.lor 128 (Z.land c 63)]
  else None.

Fixpoint encode_utf8 (s : pystr) : option (list Z) :=
  match s with
  | [] => Some []
  | c :: s' =>
    match encode_char c, encode_utf8 s' with
    | Some b, Some bs => Some (b ++ bs)
    | _, _ => None
    end
  end.

(** Comparison of two [bytes] objects: lexicographic on the byte values, a
    proper prefix first. *)
Fixpoint bytes_leb (a b : list Z) : bool :=
  match a, b with
  | [], _ => true
  | _ :: _, [] => false
  | x :: a', y :: b' => (x <? y) || ((x =? y) && bytes_leb a' b')
  end.

(** ** Python values *)

Inductive pyfloat :=
| FFinite (q : Q)
| FInf (negative : bool)
| FNan.

Inductive value :=
| VNone
| VBool (b : bool)
| VInt (z : Z)
| VFloat (f : pyfloat)
| VStr (s : pystr)
| VList (l : list value)
| VDict (d : list (pystr * value)).

(** A [dict] with string keys, in insertion order. *)
Definition dict := list (pystr * value).

Fixpoint dict_find (d : dict) (k : pystr) : option value :=
  match d with
  | [] => None
  | (k', v) :: d' => if str_eqb k' k then Some v else dict_find d' k
  end.

(** [d.get(k)] *)
Definition dict_get (d : dict) (k : pystr) : value :=
  match dict_find d k with Some v => v | None => VNone end.

(** [d.get(k, default)] *)
Definition dict_get_or (d : dict) (k : pystr) (default : value) : value :=
  match dict_find d k with Some v => v | None => default end.

(** [k in d] *)
Definition dict_has (d : dict) (k : pystr) : bool :=
  match dict_find d k with Some _ => true | None => false end.

(** [d[k] = v]: an existing key keeps its place. *)
Fixpoint dict_set (d : dict) (k : pystr) (v : value) : dict :=
  match d with
  | [] => [(k, v)]
  | (k', v') :: d' =>
    if str_eqb k' k then (k', v) :: d' else (k', v') :: dict_set d' k v
  end.

(** [isinstance(v, int)], with the integer it stands for: [bool] is a
    subclass of [int] in Python. *)
Definition as_int (v : value) : option Z :=
  match v with
  | VInt z => Some z
  | VBool b => Some (Z.b2z b)
  | _ => None
  end.

(** Truth value of an object, as [or] tests it. *)
Definition truthy (v : value) : bool :=
  match v with
  | VNone => false
  | VBool b => b
  | VInt z => negb (z =? 0)
  | VFloat (FFinite q) => negb (Qeq_bool q 0)
  | VFloat _ => true
  | VStr s => match s with [] => false | _ => true end
  | VList l => match l with [] => false | _ => true end
  | VDict d => match d with [] => false | _ => true end
  end.

(** ** Constants / limits *)

Definition MAX_CANVAS : Z := 2048.
Definition DEFAULT_CANVAS : Z := 2048.
Definition DEFAULT_SLOT : Z := 512.
Definition DEFAULT_COLS : Z := 4.
Definition DEFAULT_ROWS : Z := 4.

(** ** Exceptions

    The messages of the [ValueError]s and [RuntimeError]s the tool raises,
    one constructor per message, with the data the message shows. *)

Inductive value_error :=
| CanvasNotInteger
| CanvasNotPositive
| CanvasTooLarge
| SlotsNotNonEmptyList
| SlotNotDict
| BadIndex
| DuplicateIndex (idx : Z)
| PropertyNotInteger (idx : Z) (name : pystr)
| NonPositiveSize (idx : Z)
| BoundsExceedCanvas (idx x y w h canvas_w canvas_h : Z)
| UnsafeSlotFilename (idx : Z) (filename : value)
| ParseFailed
| GeneratedCanvasTooLarge (canvas_w canvas_h : Z)
| UnsafeFilename (filename : value) (idx : Z)
| InvalidIntLiteral.

Inductive runtime_error :=
| PlaceholderUnreadable
| SourceUnreadable (filename : pystr).

Inductive exn :=
| ValueError (m : value_error)
| RuntimeError (m : runtime_error)
| KeyError (k : pystr)
| TypeError
| AttributeError
| ZeroDivisionError
| OverflowError
| OSError
| UnicodeEncodeError.

Inductive result (A : Type) :=
| Ok (a : A)
| Raise (e : exn).

Arguments Ok {A} a.
Arguments Raise {A} e.

Definition bind {A B : Type} (r : result A) (k : A -> result B) : result B :=
  match r with
  | Ok a => k a
  | Raise e => Raise e
  end.

Notation "x <- r ;; k" := (bind r (fun x => k))
  (at level 61, r at next level, right associativity).
Notation "r ;;; k" := (bind r (fun _ => k))
  (at level 61, right associativity).

Fixpoint mapM {A B : Type} (f : A -> result B) (l : list A) : result (list B) :=
  match l with
  | [] => Ok []
  | a :: l' => b <- f a ;; bs <- mapM f l' ;; Ok (b :: bs)
  end.

(** ** Helpers *)

(** [is_safe_filename]: reject filenames that attempt path traversal or
    absolute paths. *)
Definition is_safe_filename (name : value) : bool :=
  match name with
  | VStr s =>
    if str_eqb s [] then false
    else if startswith s (py "/") || startswith s (py "\") then false
    else if str_in (py "..") s then false
    else if str_in (py "/") s || str_in (py "\") s then false
    else true
  | _ => false
  end.

(** ** Validation *)

(** The [for name, val in (("x", x), ...)] loop: the first property that is
    not an [int]. *)
Fixpoint first_non_int (props : list (pystr * value)) : option pystr :=
  match props with
  | [] => None
  | (name, val) :: rest =>
    match as_int val with
    | Some _ => first_non_int rest
    | None => Some name
    end
  end.

Definition int_of (v : value) : Z :=
  match as_int v with Some z => z | None => 0 end.

(** One turn of the loop over the slots; [seen_indices] is the set built so
    far, the result is the set after the turn. *)
Definition validate_slot (canvas_w canvas_h : Z) (seen_indices : list Z)
  (s : value) : result (list Z) :=
  match s with
  | VDict sd =>
    let idx := dict_get sd (py "index") in
    let x := dict_get sd (py "x") in
    let y := dict_get sd (py "y") in
    let w := dict_get sd (py "w") in
    let h := dict_get sd (py "h") in
    match as_int idx with
    | None => Raise (ValueError BadIndex)
    | Some idx =>
      if idx <? 1 then Raise (ValueError BadIndex)
      else if existsb (Z.eqb idx) seen_indices
      then Raise (ValueError (DuplicateIndex idx))
      else
        let seen_indices := idx :: seen_indices in
        match first_non_int [(py "x", x); (py "y", y); (py "w", w); (py "h", h)] with
        | Some name => Raise (ValueError (PropertyNotInteger idx name))
        | None =>
          let x := int_of x in
          let y := int_of y in
          let w := int_of w in
          let h := int_of h in
          if (w <=? 0) || (h <=? 0)
          then Raise (ValueError (NonPositiveSize idx))
          else if (x <? 0) || (y <? 0) || (x + w >? canvas_w) || (y + h >? canvas_h)
          then Raise (ValueError (BoundsExceedCanvas idx x y w h canvas_w canvas_h))
          else
            let filename := dict_get sd (py "filename") in
            match filename with
            | VNone => Ok seen_indices
            | _ =>
              if is_safe_filename filename then Ok seen_indices
              else Raise (ValueError (UnsafeSlotFilename idx filename))
            end
        end
    end
  | _ => Raise (ValueError SlotNotDict)
  end.

Fixpoint validate_each (canvas_w canvas_h : Z) (seen_indices : list Z)
  (slots : list value) : result unit :=
  match slots with
  | [] => Ok tt
  | s :: rest =>
    seen <- validate_slot canvas_w canvas_h seen_indices s ;;
    validate_each canvas_w canvas_h seen rest
  end.

(** [validate_slots]: validate the config dict: types, ranges, canvas limits,
    uniqueness, and slot bounds; raises [ValueError] on an invalid config. *)
Definition validate_slots (cfg : dict) : result unit :=
  let canvas_w := dict_get cfg (py "canvas_width") in
  let canvas_h := dict_get cfg (py "canvas_height") in
  match as_int canvas_w, as_int canvas_h with
  | Some canvas_w, Some canvas_h =>
    if (canvas_w <=? 0) || (canvas_h <=? 0)
    then Raise (ValueError CanvasNotPositive)
    else if (canvas_w >? MAX_CANVAS) || (canvas_h >? MAX_CANVAS)
    then Raise (ValueError CanvasTooLarge)
    else
      match dict_get cfg (py "slots") with
      | VList [] => Raise (ValueError SlotsNotNonEmptyList)
      | VList slots => validate_each canvas_w canvas_h [] slots
      | _ => Raise (ValueError SlotsNotNonEmptyList)
      end
  | _, _ => Raise (ValueError CanvasNotInteger)
  end.

(** ** Config loading *)

(** [int(v)].  Python's parser of integer literals in a [str] is taken as
    given: [int_of_str s] is the integer [int(s)] returns, [None] when it
    raises [ValueError]. *)
Definition py_int (int_of_str : pystr -> option Z) (v : value) : result Z :=
  match v with
  | VInt z => Ok z
  | VBool b => Ok (Z.b2z b)
  | VFloat (FFinite q) => Ok (Z.quot (Qnum q) (Zpos (Qden q)))
  | VFloat (FInf _) => Raise OverflowError
  | VFloat FNan => Raise (ValueError InvalidIntLiteral)
  | VStr s =>
    match int_of_str s with
    | Some z => Ok z
    | None => Raise (ValueError InvalidIntLiteral)
    end
  | VNone | VList _ | VDict _ => Raise TypeError
  end.

(** [d[k]] *)
Definition dict_index (d : dict) (k : pystr) : result value :=
  match dict_find d k with
  | Some v => Ok v
  | None => Raise (KeyError k)
  end.

(** [range(n)] *)
Definition range (n : Z) : list Z :=
  map Z.of_nat (seq 0 (Z.to_nat n)).

(** One entry of [generate_grid_slots]; [i % cols] and [i // cols] are
    Python's floored operations, which [Z.modulo] and [Z.div] are.  The loop
    body only runs when [rows * cols > 0], so [cols] is not zero there. *)
Definition grid_slot (cols slot_w slot_h i : Z) : value :=
  let col := i mod cols in
  let row := i / cols in
  VDict [ (py "index", VInt (i + 1));
          (py "x", VInt (col * slot_w));
          (py "y", VInt (row * slot_h));
          (py "w", VInt slot_w);
          (py "h", VInt slot_h);
          (py "filename", VStr (str_of_int (i + 1) ++ py ".png")) ].

Definition generate_grid_slots (cols rows slot_w slot_h : Z) : list value :=
  map (grid_slot cols slot_w slot_h) (range (rows * cols)).

(** What [load_config] finds at [<folder>/config.json]. *)
Inductive config_file :=
| NoConfig                 (* [os.path.isfile] is false *)
| Unparsable               (* [open] or [json.load] raises *)
| Parsed (raw : value).    (* the document [json.load] returns *)

Definition make_cfg (canvas_w canvas_h : Z) (slots : list value) : dict :=
  [ (py "canvas_width", VInt canvas_w);
    (py "canvas_height", VInt canvas_h);
    (py "slots", VList slots) ].

(** The dict literal built for one entry of an explicit slot list, its items
    evaluated in order.  An entry that is no dict raises [TypeError] at
    ["index" in s] or at the first subscript. *)
Definition normalize_slot (int_of_str : pystr -> option Z) (s : value)
  : result value :=
  match s with
  | VDict sd =>
    index <- (if dict_has sd (py "index")
              then v <- dict_index sd (py "index") ;;
                   i <- py_int int_of_str v ;; Ok (VInt i)
              else Ok VNone) ;;
    x <- (v <- dict_index sd (py "x") ;; py_int int_of_str v) ;;
    y <- (v <- dict_index sd (py "y") ;; py_int int_of_str v) ;;
    w <- (v <- dict_index sd (py "w") ;; py_int int_of_str v) ;;
    h <- (v <- dict_index sd (py "h") ;; py_int int_of_str v) ;;
    Ok (VDict [ (py "index", index);
                (py "x", VInt x);
                (py "y", VInt y);
                (py "w", VInt w);
                (py "h", VInt h);
                (py "filename", dict_get sd (py "filename")) ])
  | _ => Raise TypeError
  end.

(** Explicit mode: the document is a dict whose ["slots"] is a list. *)
Definition load_explicit (int_of_str : pystr -> option Z) (raw : dict)
  (slots : list value) : result dict :=
  let canvas_w := dict_get_or raw (py "canvas_width") (VInt DEFAULT_CANVAS) in
  let canvas_h := dict_get_or raw (py "canvas_height") (VInt DEFAULT_CANVAS) in
  normalized_slots <- mapM (normalize_slot int_of_str) slots ;;
  canvas_w <- py_int int_of_str canvas_w ;;
  canvas_h <- py_int int_of_str canvas_h ;;
  let cfg := make_cfg canvas_w canvas_h normalized_slots in
  validate_slots cfg ;;;
  Ok cfg.

(** Simplified grid mode: cols/rows/slot_width/slot_height. *)
Definition load_grid (int_of_str : pystr -> option Z) (raw : dict)
  : result dict :=
  cols <- py_int int_of_str (dict_get_or raw (py "cols") (VInt DEFAULT_COLS)) ;;
  rows <- py_int int_of_str (dict_get_or raw (py "rows") (VInt DEFAULT_ROWS)) ;;
  slot_w <- py_int int_of_str (dict_get_or raw (py "slot_width") (VInt DEFAULT_SLOT)) ;;
  slot_h <- py_int int_of_str (dict_get_or raw (py "slot_height") (VInt DEFAULT_SLOT)) ;;
  canvas_w <- py_int int_of_str (dict_get_or raw (py "canvas_width") (VInt (cols * slot_w))) ;;
  canvas_h <- py_int int_of_str (dict_get_or raw (py "canvas_height") (VInt (rows * slot_h))) ;;
  if (canvas_w >? MAX_CANVAS) || (canvas_h >? MAX_CANVAS)
  then Raise (ValueError (GeneratedCanvasTooLarge canvas_w canvas_h))
  else
    let slots := generate_grid_slots cols rows slot_w slot_h in
    let cfg := make_cfg canvas_w canvas_h slots in
    validate_slots cfg ;;;
    Ok cfg.

(** [load_config]: load [config.json] if present and normalise it to a dict
    with [canvas_width], [canvas_height] and [slots]. *)
Definition load_config (int_of_str : pystr -> option Z) (c : config_file)
  : result dict :=
  match c with
  | NoConfig =>
    Ok (make_cfg DEFAULT_CANVAS DEFAULT_CANVAS
          (generate_grid_slots DEFAULT_COLS DEFAULT_ROWS DEFAULT_SLOT DEFAULT_SLOT))
  | Unparsable => Raise (ValueError ParseFailed)
  | Parsed raw =>
    match raw with
    | VDict d =>
      match dict_find d (py "slots") with
      | Some (VList slots) => load_explicit int_of_str d slots
      | _ => load_grid int_of_str d
      end
    | _ => Raise AttributeError   (* [raw.get] on a document that is no dict *)
    end
  end.

(** ** Imaging

    Pillow is used through a handful of operations.  Decoding, resampling,
    cropping and alpha compositing are the library's; the builder only
    decides which geometry to ask for.  Images are immutable values here, so
    [placeholder_img.copy()] is the placeholder itself. *)

Class Pillow := {
  image : Type;
  size : image -> Z * Z;                        (* [img.size] *)
  new_rgba : Z -> Z -> image;                   (* [Image.new("RGBA", (w, h), (0,0,0,0))] *)
  resize : image -> Z * Z -> image;             (* [img.resize(size, LANCZOS)] *)
  crop : image -> Z * Z * Z * Z -> image;       (* [img.crop(box)] *)
  paste : image -> image -> Z * Z -> image      (* [canvas.paste(img, pos, img)] *)
}.

(** [round(x)] on a float: the nearest integer, a tie to the even one. *)
Definition py_round (x : Q) : Z :=
  let f := Qfloor x in
  match Qcompare (x - inject_Z f) (1 # 2) with
  | Lt => f
  | Gt => f + 1
  | Eq => if Z.even f then f else f + 1
  end.

(** [max(a, b)]: [b] when it is greater, else [a]. *)
Definition py_max (a b : Q) : Q :=
  match Qcompare a b with
  | Lt => b
  | _ => a
  end.

(** [scale = max(w_slot / w_img, h_slot / h_img)].  The quotients, and the
    products below, are floats in Python; they are exact rationals here. *)
Definition cover_scale (w_slot h_slot w_img h_img : Z) : Q :=
  py_max (inject_Z w_slot / inject_Z w_img) (inject_Z h_slot / inject_Z h_img).

(** The resize-to-cover and centre-crop arithmetic of [build_atlas]:
    the size to resize to and the top-left corner of the crop window.
    A zero image dimension raises [ZeroDivisionError]. *)
Definition cover_geometry (w_slot h_slot w_img h_img : Z)
  : result (Z * Z * Z * Z) :=
  if (w_img =? 0) || (h_img =? 0) then Raise ZeroDivisionError
  else
    let scale := cover_scale w_slot h_slot w_img h_img in
    let new_w := py_round (inject_Z w_img * scale) in
    let new_h := py_round (inject_Z h_img * scale) in
    let left_ := (new_w - w_slot) / 2 in
    let top_ := (new_h - h_slot) / 2 in
    Ok (new_w, new_h, left_, top_).

(** [sorted(l, key=...)] with the keys already computed: a stable sort.
    Insertion from the right puts an element before the elements of equal
    key that followed it. *)
Fixpoint insert_by {K A : Type} (leb : K -> K -> bool) (x : K * A)
  (l : list (K * A)) : list (K * A) :=
  match l with
  | [] => [x]
  | y :: l' => if leb (fst x) (fst y) then x :: y :: l' else y :: insert_by leb x l'
  end.

Definition sorted_by {K A : Type} (leb : K -> K -> bool) (l : list (K * A))
  : list (K * A) :=
  fold_right (insert_by leb) [] l.

Fixpoint foldM {S A : Type} (f : S -> A -> result S) (s : S) (l : list A)
  : result S :=
  match l with
  | [] => Ok s
  | a :: l' => s' <- f s a ;; foldM f s' l'
  end.

(** The sort key of a folder name, [x.encode('utf-8')]. *)
Definition encode_key (d : pystr) : result (list Z) :=
  match encode_utf8 d with
  | Some b => Ok b
  | None => Raise UnicodeEncodeError
  end.

(** ** Atlas build *)

Section Build.

Context {PIL : Pillow}.
Variable int_of_str : pystr -> option Z.

(** What is found at a path of the source folder: nothing that is a file, a
    file [safe_open_image] opens, or a file it cannot open (it returns
    [None]). *)
Inductive file_state :=
| Missing
| Readable (img : image)
| Unreadable.

Record folder_state := {
  config : config_file;               (* [config.json] *)
  file_at : pystr -> file_state;      (* [<folder>/<name>] *)
  makedirs_ok : bool;                 (* [os.makedirs] succeeds *)
  save_ok : bool                      (* the two output files can be written *)
}.

(** One entry of the manifest's [slots]. *)
Record resolved_slot := {
  m_x : Z; m_y : Z; m_w : Z; m_h : Z;
  source : option pystr               (* [None] is JSON [null] *)
}.

Inductive warning :=
| MissingNoPlaceholder (atlas_name filename : pystr) (idx : Z).

Fixpoint mapping_set (m : list (pystr * resolved_slot)) (k : pystr)
  (v : resolved_slot) : list (pystr * resolved_slot) :=
  match m with
  | [] => [(k, v)]
  | (k', v') :: m' =>
    if str_eqb k' k then (k', v) :: m' else (k', v') :: mapping_set m' k v
  end.

Record build_state := {
  canvas : image;
  mapping : list (pystr * resolved_slot);
  warnings : list warning
}.

(** [int(slot[k])] *)
Definition int_at (slot : dict) (k : pystr) : result Z :=
  v <- dict_index slot k ;; py_int int_of_str v.

(** [slot.get("filename") or f"{idx}.png"] *)
Definition resolve_filename (slot : dict) (idx : Z) : value :=
  let f := dict_get slot (py "filename") in
  if truthy f then f else VStr (str_of_int idx ++ py ".png").

(** The three sources of a slot's pixels: the image to fit, the manifest's
    [source], and the warning when the slot stays transparent. *)
Definition resolve_source (atlas_name : pystr) (folder : folder_state)
  (placeholder_img : option image) (filename : pystr) (idx : Z)
  : result (option image * option pystr * list warning) :=
  match file_at folder filename with
  | Readable img => Ok (Some img, Some filename, [])
  | Unreadable => Raise (RuntimeError (SourceUnreadable filename))
  | Missing =>
    match placeholder_img with
    | Some p => Ok (Some p, Some (py "placeholder.png"), [])
    | None => Ok (None, None, [MissingNoPlaceholder atlas_name filename idx])
    end
  end.

(** Resize and paste, when there is an image. *)
Definition fit_and_paste (cv : image) (slot : dict) (img : image)
  : result image :=
  w_slot <- int_at slot (py "w") ;;
  h_slot <- int_at slot (py "h") ;;
  let (w_img, h_img) := size img in
  g <- cover_geometry w_slot h_slot w_img h_img ;;
  let '(new_w, new_h, left_, top_) := g in
  let img := resize img (new_w, new_h) in
  let img := crop img (left_, top_, left_ + w_slot, top_ + h_slot) in
  x <- int_at slot (py "x") ;;
  y <- int_at slot (py "y") ;;
  Ok (paste cv img (x, y)).

(** One turn of the loop over the sorted slots. *)
Definition build_slot (atlas_name : pystr) (folder : folder_state)
  (placeholder_img : option image) (st : build_state) (slot : value)
  : result build_state :=
  match slot with
  | VDict sd =>
    idx <- int_at sd (py "index") ;;
    let filename := resolve_filename sd idx in
    if negb (is_safe_filename filename)
    then Raise (ValueError (UnsafeFilename filename idx))
    else
      match filename with
      | VStr fname =>
        r <- resolve_source atlas_name folder placeholder_img fname idx ;;
        let '(img, source_used, warned) := r in
        cv <- match img with
              | Some img => fit_and_paste (canvas st) sd img
              | None => Ok (canvas st)
              end ;;
        x <- int_at sd (py "x") ;;
        y <- int_at sd (py "y") ;;
        w <- int_at sd (py "w") ;;
        h <- int_at sd (py "h") ;;
        Ok {| canvas := cv;
              mapping := mapping_set (mapping st) (str_of_int idx)
                           {| m_x := x; m_y := y; m_w := w; m_h := h;
                              source := source_used |};
              warnings := warnings st ++ warned |}
      | _ => Raise TypeError
      end
  | _ => Raise TypeError
  end.

(** The written atlas: the canvas and the manifest, with the warnings
    printed on the way. *)
Record atlas := {
  name : pystr;
  width : Z;
  height : Z;
  pixels : image;
  slots : list (pystr * resolved_slot);
  warned : list warning
}.

(** The key of [sorted(cfg["slots"], key=lambda s: int(s["index"]))]. *)
Definition slot_key (s : value) : result Z :=
  match s with
  | VDict sd => int_at sd (py "index")
  | _ => Raise TypeError
  end.

Definition sort_slots (slots : list value) : result (list value) :=
  keys <- mapM slot_key slots ;;
  Ok (map snd (sorted_by Z.leb (combine keys slots))).

(** The part of [build_atlas] after the config is loaded. *)
Definition compose (atlas_name : pystr) (folder : folder_state) (cfg : dict)
  : result atlas :=
  canvas_w <- dict_index cfg (py "canvas_width") ;;
  canvas_h <- dict_index cfg (py "canvas_height") ;;
  match as_int canvas_w, as_int canvas_h with
  | Some canvas_w, Some canvas_h =>
    let cv := new_rgba canvas_w canvas_h in
    placeholder_img <-
      match file_at folder (py "placeholder.png") with
      | Missing => Ok None
      | Readable p => Ok (Some p)
      | Unreadable => Raise (RuntimeError PlaceholderUnreadable)
      end ;;
    sl <- dict_index cfg (py "slots") ;;
    match sl with
    | VList sl =>
      sorted_slots <- sort_slots sl ;;
      st <- foldM (build_slot atlas_name folder placeholder_img)
              {| canvas := cv; mapping := []; warnings := [] |} sorted_slots ;;
      if save_ok folder
      then Ok {| name := atlas_name; width := canvas_w; height := canvas_h;
                 pixels := canvas st; slots := mapping st;
                 warned := warnings st |}
      else Raise OSError
    | _ => Raise TypeError
    end
  | _, _ => Raise TypeError
  end.

Definition build_atlas (atlas_name : pystr) (folder : folder_state)
  : result atlas :=
  if makedirs_ok folder
  then cfg <- load_config int_of_str (config folder) ;;
       compose atlas_name folder cfg
  else Raise OSError.

(** ** Main *)

(** The file system under [SRC_DIR]: whether it is a directory, what
    [os.listdir] returns (each name with [os.path.isdir] of it; [None] when
    it raises), and each folder. *)
Record world := {
  src_is_dir : bool;
  listdir : option (list (pystr * bool));
  folder_of : pystr -> folder_state
}.

(** Under which heading [main] reports an exception of [build_atlas]. *)
Inductive report :=
| ConfigValidationError    (* [except ValueError] *)
| RuntimeErrorReport       (* [except RuntimeError] *)
| UnexpectedError.         (* [except Exception] *)

Definition report_of (e : exn) : report :=
  match e with
  | ValueError _ => ConfigValidationError
  | RuntimeError _ => RuntimeErrorReport
  | _ => UnexpectedError
  end.

(** What a run leaves: the exit code of the process, the folders
    [build_atlas] was called on, in order, the atlases written, and the
    failure reported, if any. *)
Record run := {
  exit_code : Z;
  attempted : list pystr;
  built : list atlas;
  failure : option (pystr * report * exn)
}.

(** The sorted list of sub-directory names, keyed by their UTF-8 bytes. *)
Definition atlas_folders (w : world) : result (list pystr) :=
  match listdir w with
  | None => Raise OSError
  | Some entries =>
    let dirs := map fst (filter snd entries) in
    keys <- mapM encode_key dirs ;;
    Ok (map snd (sorted_by bytes_leb (combine keys dirs)))
  end.

(** The [for name in atlas_folders] loop: the first exception exits. *)
Fixpoint build_all (w : world) (names : list pystr) : run :=
  match names with
  | [] => {| exit_code := 0; attempted := []; built := []; failure := None |}
  | name :: rest =>
    match build_atlas name (folder_of w name) with
    | Ok a =>
      let r := build_all w rest in
      {| exit_code := exit_code r;
         attempted := name :: attempted r;
         built := a :: built r;
         failure := failure r |}
    | Raise e =>
      {| exit_code := 1; attempted := [name]; built := [];
         failure := Some (name, report_of e, e) |}
    end
  end.

Definition main (w : world) : run :=
  if src_is_dir w then
    match atlas_folders w with
    | Raise _ => {| exit_code := 1; attempted := []; built := []; failure := None |}
    | Ok [] => {| exit_code := 0; attempted := []; built := []; failure := None |}
    | Ok names => build_all w names
    end
  else {| exit_code := 1; attempted := []; built := []; failure := None |}.

End Build.

(** ** Specification vocabulary

    The predicates and sample inputs the properties of Part II are stated
    with. *)

(** [s] begins with [p]; [sub] occurs in [s]. *)
Definition begins_with (p s : pystr) : Prop := exists t, s = p ++ t.
Definition occurs_in (sub s : pystr) : Prop := exists a b, s = a ++ sub ++ b.

(** The names the filename safety predicate is to reject: anything that is
    no string, the empty string, a leading [/] or [\], a [..] anywhere, a
    [/] or [\] anywhere. *)
Definition unsafe_name (name : value) : Prop :=
  match name with
  | VStr s =>
    s = [] \/ begins_with (py "/") s \/ begins_with (py "\") s \/
    occurs_in (py "..") s \/ occurs_in (py "/") s \/ occurs_in (py "\") s
  | _ => True
  end.

(** The [k]-th slot of the default grid, counted from 1 in row-major order
    over four columns of 512 pixels. *)
Definition default_slot (k : Z) : value :=
  VDict [ (py "index", VInt k);
          (py "x", VInt (512 * ((k - 1) mod 4)));
          (py "y", VInt (512 * ((k - 1) / 4)));
          (py "w", VInt 512);
          (py "h", VInt 512);
          (py "filename", VStr (str_of_int k ++ py ".png")) ].

(** A slot entry written out field by field. *)
Definition slot_entry (index x y w h : Z) (filename : string) : value :=
  VDict [ (py "index", VInt index); (py "x", VInt x); (py "y", VInt y);
          (py "w", VInt w); (py "h", VInt h);
          (py "filename", VStr (py filename)) ].

(** *** The validator's checks

    The checks of the validator one at a time: four on the configuration as
    a whole, eight on each slot.  A check that needs a value of a certain
    type passes when that value is missing (the check on the type is a
    check of its own), so each check can fail alone. *)

Inductive config_check :=
| CanvasIntegers         (* canvas_width and canvas_height are integers *)
| CanvasPositive         (* both are strictly positive *)
| CanvasCeiling          (* both are <= MAX_CANVAS *)
| SlotsNonEmptyList.     (* slots is a non-empty list *)

Inductive slot_check :=
| IsDict                 (* the entry is an object *)
| IndexInteger           (* index is an integer *)
| IndexAtLeastOne        (* index >= 1 *)
| IndexNotSeen           (* index is not the index of an earlier slot *)
| XYWHIntegers           (* x, y, w, h are integers *)
| SizePositive           (* w > 0 and h > 0 *)
| WithinBounds           (* x >= 0, y >= 0, x+w <= canvas_width, y+h <= canvas_height *)
| FilenameSafe.          (* a present filename is safe *)

Inductive check :=
| OnConfig (g : config_check)
| OnSlot (k : nat) (c : slot_check).     (* on the slot at position [k] *)

Inductive clause :=
| ConfigClause (g : config_check)
| SlotClause (c : slot_check).           (* on every slot *)

Definition clause_of (chk : check) : clause :=
  match chk with
  | OnConfig g => ConfigClause g
  | OnSlot _ c => SlotClause c
  end.

Definition canvas_dims (cfg : dict) : option (Z * Z) :=
  match as_int (dict_get cfg (py "canvas_width")),
        as_int (dict_get cfg (py "canvas_height")) with
  | Some cw, Some ch => Some (cw, ch)
  | _, _ => None
  end.

Definition slot_list (cfg : dict) : list value :=
  match dict_get cfg (py "slots") with
  | VList sl => sl
  | _ => []
  end.

Definition field (s : value) (k : string) : value :=
  match s with
  | VDict d => dict_get d (py k)
  | _ => VNone
  end.

Definition slot_index (s : value) : option Z := as_int (field s "index").

(** The integer indices of a list of slots, in order. *)
Definition int_indices (sl : list value) : list Z :=
  flat_map (fun s => match slot_index s with Some i => [i] | None => [] end) sl.

Definition passes (c : slot_check) (dims : option (Z * Z))
  (earlier : list value) (s : value) : bool :=
  match c with
  | IsDict => match s with VDict _ => true | _ => false end
  | IndexInteger =>
    match s with
    | VDict _ => match slot_index s with Some _ => true | None => false end
    | _ => true
    end
  | IndexAtLeastOne =>
    match slot_index s with Some i => 1 <=? i | None => true end
  | IndexNotSeen =>
    match slot_index s with
    | Some i => negb (existsb (Z.eqb i) (int_indices earlier))
    | None => true
    end
  | XYWHIntegers =>
    match s with
    | VDict _ =>
      match as_int (field s "x"), as_int (field s "y"),
            as_int (field s "w"), as_int (field s "h") with
      | Some _, Some _, Some _, Some _ => true
      | _, _, _, _ => false
      end
    | _ => true
    end
  | SizePositive =>
    match as_int (field s "w"), as_int (field s "h") with
    | Some w, Some h => (0 <? w) && (0 <? h)
    | _, _ => true
    end
  | WithinBounds =>
    match dims, as_int (field s "x"), as_int (field s "y"),
          as_int (field s "w"), as_int (field s "h") with
    | Some (cw, ch), Some x, Some y, Some w, Some h =>
      (0 <=? x) && (0 <=? y) && (x + w <=? cw) && (y + h <=? ch)
    | _, _, _, _, _ => true
    end
  | FilenameSafe =>
    match field s "filename" with
    | VNone => true
    | f => is_safe_filename f
    end
  end.

Definition check_passes (cfg : dict) (chk : check) : bool :=
  match chk with
  | OnConfig CanvasIntegers =>
    match canvas_dims cfg with Some _ => true | None => false end
  | OnConfig CanvasPositive =>
    match canvas_dims cfg with
    | Some (cw, ch) => (0 <? cw) && (0 <? ch)
    | None => true
    end
  | OnConfig CanvasCeiling =>
    match canvas_dims cfg with
    | Some (cw, ch) => (cw <=? MAX_CANVAS) && (ch <=? MAX_CANVAS)
    | None => true
    end
  | OnConfig SlotsNonEmptyList =>
    match dict_get cfg (py "slots") with
    | VList (_ :: _) => true
    | _ => false
    end
  | OnSlot k c =>
    passes c (canvas_dims cfg) (firstn k (slot_list cfg))
           (nth k (slot_list cfg) VNone)
  end.

(** The name in "slot <idx> property '<name>' must be integer". *)
Definition non_integer_property (s : value) : pystr :=
  match as_int (field s "x"), as_int (field s "y"), as_int (field s "w") with
  | None, _, _ => py "x"
  | _, None, _ => py "y"
  | _, _, None => py "w"
  | _, _, _ => py "h"
  end.

(** The [ValueError] that reports a failed check. *)
Definition slot_message (c : slot_check) (dims : option (Z * Z)) (s : value)
  : value_error :=
  let idx := int_of (field s "index") in
  match c with
  | IsDict => SlotNotDict
  | IndexInteger | IndexAtLeastOne => BadIndex
  | IndexNotSeen => DuplicateIndex idx
  | XYWHIntegers => PropertyNotInteger idx (non_integer_property s)
  | SizePositive => NonPositiveSize idx
  | WithinBounds =>
    let (cw, ch) := match dims with Some d => d | None => (0, 0) end in
    BoundsExceedCanvas idx (int_of (field s "x")) (int_of (field s "y"))
                       (int_of (field s "w")) (int_of (field s "h")) cw ch
  | FilenameSafe => UnsafeSlotFilename idx (field s "filename")
  end.

Definition check_message (cfg : dict) (chk : check) : value_error :=
  match chk with
  | OnConfig CanvasIntegers => CanvasNotInteger
  | OnConfig CanvasPositive => CanvasNotPositive
  | OnConfig CanvasCeiling => CanvasTooLarge
  | OnConfig SlotsNonEmptyList => SlotsNotNonEmptyList
  | OnSlot k c => slot_message c (canvas_dims cfg) (nth k (slot_list cfg) VNone)
  end.

(** All checks of a configuration, the checks on a slot in the order
    [order], slot after slot. *)
Definition all_checks (order : list slot_check) (cfg : dict) : list check :=
  map OnConfig [CanvasIntegers; CanvasPositive; CanvasCeiling; SlotsNonEmptyList]
  ++ flat_map (fun k => map (OnSlot k) order)
              (seq 0 (List.length (slot_list cfg))).

(** First failure wins. *)
Definition first_failure (order : list slot_check) (cfg : dict) : option check :=
  find (fun chk => negb (check_passes cfg chk)) (all_checks order cfg).

Definition reported (order : list slot_check) (cfg : dict) : result unit :=
  match first_failure order cfg with
  | None => Ok tt
  | Some chk => Raise (ValueError (check_message cfg chk))
  end.

(** The order in which [validate_slots] checks a slot. *)
Definition code_order : list slot_check :=
  [IsDict; IndexInteger; IndexAtLeastOne; IndexNotSeen; XYWHIntegers;
   SizePositive; WithinBounds; FilenameSafe].

(** The order of the specification's list: all five fields are integers,
    index >= 1, no duplicate, positive size, bounds, filename. *)
Definition listed_order : list slot_check :=
  [IsDict; IndexInteger; XYWHIntegers; IndexAtLeastOne; IndexNotSeen;
   SizePositive; WithinBounds; FilenameSafe].

(** A clause holds of a configuration when every check of it passes. *)
Definition checks_of (cl : clause) (cfg : dict) : list check :=
  match cl with
  | ConfigClause g => [OnConfig g]
  | SlotClause c => map (fun k => OnSlot k c) (seq 0 (List.length (slot_list cfg)))
  end.

Definition holds (cl : clause) (cfg : dict) : bool :=
  forallb (check_passes cfg) (checks_of cl cfg).

(** The clause a message names.  "slot 'index' must be integer >= 1" names
    both clauses on the index. *)
Definition names (m : value_error) (cl : clause) : bool :=
  match m, cl with
  | CanvasNotInteger, ConfigClause CanvasIntegers => true
  | CanvasNotPositive, ConfigClause CanvasPositive => true
  | CanvasTooLarge, ConfigClause CanvasCeiling => true
  | SlotsNotNonEmptyList, ConfigClause SlotsNonEmptyList => true
  | SlotNotDict, SlotClause IsDict => true
  | BadIndex, SlotClause IndexInteger => true
  | BadIndex, SlotClause IndexAtLeastOne => true
  | DuplicateIndex _, SlotClause IndexNotSeen => true
  | PropertyNotInteger _ _, SlotClause XYWHIntegers => true
  | NonPositiveSize _, SlotClause SizePositive => true
  | BoundsExceedCanvas _ _ _ _ _ _ _, SlotClause WithinBounds => true
  | UnsafeSlotFilename _ _, SlotClause FilenameSafe => true
  | _, _ => false
  end.

(** A slot as the data model wants it, on a canvas of [cw] x [ch]. *)
Definition slot_well_formed (cw ch : Z) (s : value) : Prop :=
  exists d idx x y w h,
    s = VDict d /\
    as_int (dict_get d (py "index")) = Some idx /\
    as_int (dict_get d (py "x")) = Some x /\
    as_int (dict_get d (py "y")) = Some y /\
    as_int (dict_get d (py "w")) = Some w /\
    as_int (dict_get d (py "h")) = Some h /\
    1 <= idx /\
    0 < w /\ 0 < h /\
    0 <= x /\ 0 <= y /\ x + w <= cw /\ y + h <= ch /\
    (dict_get d (py "filename") = VNone \/
     is_safe_filename (dict_get d (py "filename")) = true).

(** A configuration as the data model wants it. *)
Definition well_formed (cfg : dict) : Prop :=
  exists cw ch sl,
    as_int (dict_get cfg (py "canvas_width")) = Some cw /\
    as_int (dict_get cfg (py "canvas_height")) = Some ch /\
    0 < cw <= 2048 /\ 0 < ch <= 2048 /\
    dict_get cfg (py "slots") = VList sl /\
    sl <> [] /\
    Forall (slot_well_formed cw ch) sl /\
    NoDup (int_indices sl).

(** The checks on the [n] slots from position [k] on. *)
Definition slot_checks_from (order : list slot_check) (k n : nat) : list check :=
  flat_map (fun k => map (OnSlot k) order) (seq k n).

(** *** The compositor and the orchestrator *)


(** A decimal digit. *)
Definition is_digit (c : Z) : Prop := 48 <= c <= 57.

(** A result that is not the compositor's unsafe-filename abort. *)
Definition benign {A : Type} (r : result A) : Prop :=
  forall f i, r <> Raise (ValueError (UnsafeFilename f i)).


(** The order of two keyed items under [sorted]: by their keys. *)
Definition keyed_le {K A : Type} (leb : K -> K -> bool) (x y : K * A) : Prop :=
  leb (fst x) (fst y) = true.

(** *** Sample inputs *)

(** One slot of width 0 at the origin of a 2048 x 2048 canvas. *)
Definition zero_width_cfg : dict :=
  make_cfg 2048 2048 [slot_entry 1 0 0 0 512 "a.png"].

(** Two slots with index 1; the [x] of the second is [None]. *)
Definition order_cfg : dict :=
  make_cfg 2048 2048
    [ slot_entry 1 0 0 1 1 "a.png";
      VDict [ (py "index", VInt 1); (py "x", VNone); (py "y", VInt 0);
              (py "w", VInt 1); (py "h", VInt 1); (py "filename", VNone) ] ].

(** Images that are their size only: enough to run the builder on concrete
    folders. *)
Definition size_only : Pillow :=
  {| image := Z * Z;
     size := fun img => img;
     new_rgba := fun w h => (w, h);
     resize := fun _ sz => sz;
     crop := fun _ box => let '(l, t, r, b) := box in (r - l, b - t);
     paste := fun cv _ _ => cv |}.

(** No string is an integer literal. *)
Definition no_literal : pystr -> option Z := fun _ => None.

(** The default configuration, and its first slot. *)
Definition default_cfg : dict :=
  make_cfg DEFAULT_CANVAS DEFAULT_CANVAS
    (generate_grid_slots DEFAULT_COLS DEFAULT_ROWS DEFAULT_SLOT DEFAULT_SLOT).


(** A folder with nothing in it, over [size_only] images. *)
Definition empty_folder : @folder_state size_only :=
  {| config := NoConfig;
     file_at := fun _ => Missing;
     makedirs_ok := true;
     save_ok := true |}.


(** A source root with the sub-directories [names], each an empty folder,
    and one plain file. *)
Definition sample_world (names : list pystr) : @world size_only :=
  {| src_is_dir := true;
     listdir := Some ((py "README.md", false) :: map (fun n => (n, true)) names);
     folder_of := fun _ => empty_folder |}.

Definition explicit_config (slot : dict) : config_file :=
  Parsed (VDict [ (py "slots", VList [VDict slot]) ]).

(** [{"slots": [{"index": 1, "y": 0, "w": 1, "h": 1}]}]: no ["x"]. *)
Definition missing_x_config : config_file :=
  explicit_config [ (py "index", VInt 1); (py "y", VInt 0);
                    (py "w", VInt 1); (py "h", VInt 1) ].

(** [{"slots": [{"index": 1, "x": null, "y": 0, "w": 1, "h": 1}]}] *)
Definition null_x_config : config_file :=
  explicit_config [ (py "index", VInt 1); (py "x", VNone); (py "y", VInt 0);
                    (py "w", VInt 1); (py "h", VInt 1) ].

(** [{"slots": [{"x": 0, "y": 0, "w": 1, "h": 1}]}]: no ["index"]. *)
Definition missing_index_config : config_file :=
  explicit_config [ (py "x", VInt 0); (py "y", VInt 0);
                    (py "w", VInt 1); (py "h", VInt 1) ].

(** [{"slots": [{"index": 1, "x": 0, "y": 0, "w": 1, "h": 1}]}]: no
    ["filename"]. *)
Definition no_filename_config : config_file :=
  explicit_config [ (py "index", VInt 1); (py "x", VInt 0); (py "y", VInt 0);
                    (py "w", VInt 1); (py "h", VInt 1) ].

(** A source root with the one folder ["ui"] holding the document [c]. *)
Definition one_folder_world {PIL : Pillow} (c : config_file)
  (files : pystr -> file_state) : world :=
  {| src_is_dir := true;
     listdir := Some [(py "ui", true)];
     folder_of := fun _ => {| config := c; file_at := files;
                              makedirs_ok := true; save_ok := true |} |}.

(** *** Canonical configurations *)

(** A slot entry as [load_config] writes it: the six keys in order, the
    five numbers as [int]s. *)
Definition canonical_slot (s : value) : Prop :=
  exists i x y w h f,
    s = VDict [ (py "index", VInt i); (py "x", VInt x); (py "y", VInt y);
                (py "w", VInt w); (py "h", VInt h); (py "filename", f) ].

(** A configuration as [load_config] writes it. *)
Definition canonical (cfg : dict) : Prop :=
  exists cw ch sl, cfg = make_cfg cw ch sl /\ Forall canonical_slot sl.

(** The keys [load_config] reads from a document. *)
Definition recognized_keys : list pystr :=
  [ py "slots"; py "cols"; py "rows"; py "slot_width"; py "slot_height";
    py "canvas_width"; py "canvas_height" ].

(** [{"cols": 2, "rows": 3, "slot_width": 100, "slot_height": 50}] *)
Definition grid_2x3_config : config_file :=
  Parsed (VDict [ (py "cols", VInt 2); (py "rows", VInt 3);
                  (py "slot_width", VInt 100); (py "slot_height", VInt 50) ]).

(** *** Rectangles *)

(** The rectangle of a slot: x, y, w, h. *)
Definition rect_of (s : value) : Z * Z * Z * Z :=
  (int_of (field s "x"), int_of (field s "y"),
   int_of (field s "w"), int_of (field s "h")).

(** Two slots share no pixel. *)
Definition rects_disjoint (a b : value) : Prop :=
  let '(xa, ya, wa, ha) := rect_of a in
  let '(xb, yb, wb, hb) := rect_of b in
  xa + wa <= xb \/ xb + wb <= xa \/ ya + ha <= yb \/ yb + hb <= ya.

(** *** The manifest *)

(** The index of a slot, as the compositor reads it from an accepted slot. *)
Definition index_of (s : value) : Z := int_of (field s "index").

(** The filename the compositor resolves for an accepted slot. *)
Definition resolved_name (s : value) : pystr :=
  match s with
  | VDict sd =>
    match resolve_filename sd (index_of s) with
    | VStr f => f
    | _ => []
    end
  | _ => []
  end.

(** The [source] the compositor records for a slot in a folder whose files
    all open. *)
Definition expected_source {PIL : Pillow} (folder : folder_state) (s : value)
  : option pystr :=
  match file_at folder (resolved_name s) with
  | Readable _ => Some (resolved_name s)
  | Unreadable => None
  | Missing =>
    match file_at folder (py "placeholder.png") with
    | Readable _ => Some (py "placeholder.png")
    | _ => None
    end
  end.

(** The manifest entry of a slot: its key and what is recorded under it. *)
Definition manifest_entry {PIL : Pillow} (folder : folder_state) (s : value)
  : pystr * resolved_slot :=
  (str_of_int (index_of s),
   {| m_x := int_of (field s "x"); m_y := int_of (field s "y");
      m_w := int_of (field s "w"); m_h := int_of (field s "h");
      source := expected_source folder s |}).

(** An image the fit can be computed for: no side is zero. *)
Definition image_usable {PIL : Pillow} (img : image) : Prop :=
  fst (size img) <> 0 /\ snd (size img) <> 0.

(** The turn of a slot succeeds: its file opens and is usable; or there is
    no such file and the placeholder, if any, is usable. *)
Definition slot_builds {PIL : Pillow} (folder : folder_state) (s : value) : Prop :=
  match file_at folder (resolved_name s) with
  | Readable img => image_usable img
  | Unreadable => False
  | Missing =>
    match file_at folder (py "placeholder.png") with
    | Readable p => image_usable p
    | _ => True
    end
  end.

(** What [build_atlas] keeps of [placeholder.png]. *)
Definition loaded_placeholder {PIL : Pillow} (folder : folder_state)
  (ph : option image) : Prop :=
  match file_at folder (py "placeholder.png") with
  | Readable p => ph = Some p
  | Missing => ph = None
  | Unreadable => False
  end.


(** *** Folder names *)

(** The sort key of an encodable name. *)
Definition utf8_key (d : pystr) : list Z :=
  match encode_utf8 d with
  | Some b => b
  | None => []
  end.

Definition encodable (d : pystr) : bool :=
  match encode_utf8 d with
  | Some _ => true
  | None => false
  end.

(** A surrogate code point, as [os.listdir] gives for a byte of a name that
    is not UTF-8. *)
Definition is_surrogate (c : Z) : Prop := 55296 <= c <= 57343.

(** *** Checks on types *)

(** The validator's messages about the type of a field. *)
Definition type_check_error (e : exn) : Prop :=
  match e with
  | ValueError CanvasNotInteger => True
  | ValueError SlotNotDict => True
  | ValueError (PropertyNotInteger _ _) => True
  | _ => False
  end.

(** A result that is not an exception with the property [P]. *)
Definition avoids {A : Type} (P : exn -> Prop) (r : result A) : Prop :=
  forall e, r = Raise e -> ~ P e.

(** A slot entry as [normalize_slot] writes it: [index] an [int] or
    [None]. *)
Definition normalized_slot (s : value) : Prop :=
  exists iv x y w h f,
    s = VDict [ (py "index", iv); (py "x", VInt x); (py "y", VInt y);
                (py "w", VInt w); (py "h", VInt h); (py "filename", f) ] /\
    (iv = VNone \/ exists i, iv = VInt i).

(** A folder whose [placeholder.png] does not open. *)
Definition bad_placeholder_folder : @folder_state size_only :=
  {| config := NoConfig;
     file_at := fun nm => if str_eqb nm (py "placeholder.png") then Unreadable
                          else @Readable size_only (64, 64);
     makedirs_ok := true;
     save_ok := true |}.

(* ====================================================================== *)
(** * Part II: properties                                                  *)
(* ====================================================================== *)

(** ** The Python primitives on small inputs *)

Example str_of_int_examples :
  str_of_int 0 = py "0" /\ str_of_int 16 = py "16" /\
  str_of_int 2048 = py "2048" /\ str_of_int (-7) = py "-7".
Proof. repeat split; reflexivity. Qed.

Example encode_utf8_examples :
  encode_utf8 (py "A") = Some [65] /\
  encode_utf8 [228] = Some [195; 164] /\            (* U+00E4 *)
  encode_utf8 [8364] = Some [226; 130; 172] /\      (* U+20AC *)
  encode_utf8 [128512] = Some [240; 159; 152; 128] /\ (* U+1F600 *)
  encode_utf8 [56448] = None.                       (* a lone surrogate *)
Proof. repeat split; reflexivity. Qed.

Example py_round_examples :
  py_round (5 # 2) = 2 /\ py_round (7 # 2) = 4 /\ py_round (-1 # 2) = 0 /\
  py_round (13 # 5) = 3 /\ py_round (12 # 5) = 2 /\ py_round (-13 # 5) = -3.
Proof. repeat split; reflexivity. Qed.

Example py_int_examples (int_of_str : pystr -> option Z) :
  py_int int_of_str (VFloat (FFinite (19 # 10))) = Ok 1 /\
  py_int int_of_str (VFloat (FFinite (-19 # 10))) = Ok (-1) /\
  py_int int_of_str (VBool true) = Ok 1 /\
  py_int int_of_str VNone = Raise TypeError.
Proof. repeat split; reflexivity. Qed.

Example sorted_by_is_stable :
  sorted_by Z.leb [(2, py "b"); (1, py "x"); (2, py "a"); (1, py "y")]
  = [(1, py "x"); (1, py "y"); (2, py "b"); (2, py "a")].
Proof. reflexivity. Qed.

(** ** Strings *)

Lemma str_eqb_eq (a b : pystr) : str_eqb a b = true <-> a = b.
Proof.
  revert b; induction a as [|x a IH]; intros [|y b]; simpl; split;
    try congruence; try reflexivity.
  - rewrite andb_true_iff, Z.eqb_eq, IH. intros [-> ->]; reflexivity.
  - intros E; injection E as -> ->. rewrite Z.eqb_refl. apply IH; reflexivity.
Qed.

Lemma str_eqb_refl (a : pystr) : str_eqb a a = true.
Proof. apply str_eqb_eq; reflexivity. Qed.

Lemma str_eqb_neq (a b : pystr) : str_eqb a b = false <-> a <> b.
Proof.
  rewrite <- str_eqb_eq. destruct (str_eqb a b); split; congruence.
Qed.

Lemma startswith_spec (s p : pystr) :
  startswith s p = true <-> exists t, s = p ++ t.
Proof.
  revert s; induction p as [|c p IH]; intros s; simpl.
  - split; [intros _; exists s; reflexivity | reflexivity].
  - destruct s as [|d s].
    + split; [discriminate | intros [t E]; discriminate].
    + rewrite andb_true_iff, Z.eqb_eq, IH. split.
      * intros [-> [t ->]]. exists t; reflexivity.
      * intros [t E]. injection E as -> ->. split; [reflexivity | exists t; reflexivity].
Qed.

Lemma str_in_spec (sub s : pystr) :
  str_in sub s = true <-> exists a b, s = a ++ sub ++ b.
Proof.
  induction s as [|d s IH].
  - simpl. rewrite orb_false_r, startswith_spec. split.
    + intros [t E]. exists [], t. exact E.
    + intros [a [b E]]. destruct a; [exists b; exact E | discriminate].
  - cbn [str_in]. rewrite orb_true_iff, startswith_spec, IH. split.
    + intros [[t E] | [a [b E]]].
      * exists [], t. exact E.
      * exists (d :: a), b. rewrite E. reflexivity.
    + intros [[|x a] [b E]].
      * left. exists b. exact E.
      * right. exists a, b. simpl in E. congruence.
Qed.

(** A single character occurs in a string as a run of length one. *)
Lemma str_in_char (c : Z) (s : pystr) :
  str_in [c] s = true <-> In c s.
Proof.
  rewrite str_in_spec. split.
  - intros [a [b ->]]. apply in_or_app. right. left. reflexivity.
  - intros H. apply in_split in H. destruct H as [a [b ->]]. exists a, b. reflexivity.
Qed.

(** ** The filename safety predicate *)

Lemma is_safe_filename_false (name : value) :
  is_safe_filename name = false <-> unsafe_name name.
Proof.
  destruct name as [| b | z | f | s | l | d];
    cbn [is_safe_filename unsafe_name]; try tauto.
  unfold begins_with, occurs_in.
  rewrite <- !startswith_spec, <- !str_in_spec, <- (str_eqb_eq s []).
  destruct (str_eqb s []); [intuition congruence|].
  destruct (startswith s (py "/")); [simpl; intuition congruence|].
  destruct (startswith s (py "\")); [simpl; intuition congruence|].
  destruct (str_in (py "..") s); [simpl; intuition congruence|].
  destruct (str_in (py "/") s); [simpl; intuition congruence|].
  destruct (str_in (py "\") s); simpl; intuition congruence.
Qed.

(** C3.  [is_safe_filename] returns [False] exactly for the unsafe names (a
    non-string, the empty string, a leading separator, a [..] or a separator
    anywhere) and [True] for every other string, whatever its characters:
    it rejects "../x.png", "/etc/passwd", "a/b.png", "a\b.png" and the empty
    string, and accepts "tile 01.png", "1.png" and a name with a non-ASCII
    letter.  Being a function of its argument it has no effect. *)
Theorem is_safe_filename_exact :
  (forall name, is_safe_filename name = false <-> unsafe_name name) /\
  (forall name, is_safe_filename name = true <-> ~ unsafe_name name) /\
  is_safe_filename (VStr (py "../x.png")) = false /\
  is_safe_filename (VStr (py "/etc/passwd")) = false /\
  is_safe_filename (VStr (py "a/b.png")) = false /\
  is_safe_filename (VStr (py "a\b.png")) = false /\
  is_safe_filename (VStr (py "")) = false /\
  is_safe_filename VNone = false /\
  is_safe_filename (VInt 7) = false /\
  is_safe_filename (VStr (py "tile 01.png")) = true /\
  is_safe_filename (VStr (py "1.png")) = true /\
  is_safe_filename (VStr (228 :: py ".png")) = true.
Proof.
  split; [exact is_safe_filename_false|].
  split.
  - intros name. rewrite <- is_safe_filename_false.
    destruct (is_safe_filename name); split; congruence.
  - repeat split; reflexivity.
Qed.

(** ** The grid generator and the default configuration *)

Lemma range_length (n : Z) : List.length (range n) = Z.to_nat n.
Proof. unfold range. rewrite length_map, length_seq. reflexivity. Qed.

Lemma range_nth (n i : Z) :
  0 <= i < n -> nth_error (range n) (Z.to_nat i) = Some i.
Proof.
  intros H. unfold range.
  rewrite nth_error_map, nth_error_seq.
  destruct (Nat.ltb_spec (Z.to_nat i) (Z.to_nat n)) as [_ | H']; [|lia].
  simpl. rewrite Z2Nat.id by lia. reflexivity.
Qed.

Lemma generate_grid_slots_length (cols rows slot_w slot_h : Z) :
  List.length (generate_grid_slots cols rows slot_w slot_h) = Z.to_nat (rows * cols).
Proof. unfold generate_grid_slots. rewrite length_map. apply range_length. Qed.

Lemma generate_grid_slots_nth (cols rows slot_w slot_h i : Z) :
  0 <= i < rows * cols ->
  nth_error (generate_grid_slots cols rows slot_w slot_h) (Z.to_nat i)
  = Some (grid_slot cols slot_w slot_h i).
Proof.
  intros H. unfold generate_grid_slots.
  rewrite nth_error_map, range_nth by exact H. reflexivity.
Qed.

(** C5.  With no [config.json] in the folder, [load_config] returns the
    default grid: a 2048 x 2048 canvas and exactly 16 slots, the [k]-th
    (k = 1..16) with index [k], size 512 x 512, filename "<k>.png" and its
    corner at column [(k-1) mod 4], row [(k-1) / 4] of the grid; so slot 1
    is at (0,0), slot 5 at (0,512) and slot 16 at (1536,1536). *)
Theorem load_config_default_grid (int_of_str : pystr -> option Z) :
  exists sl,
    load_config int_of_str NoConfig = Ok (make_cfg 2048 2048 sl) /\
    List.length sl = 16%nat /\
    (forall k, 1 <= k <= 16 ->
       nth_error sl (Z.to_nat (k - 1)) = Some (default_slot k)) /\
    default_slot 1 = slot_entry 1 0 0 512 512 "1.png" /\
    default_slot 2 = slot_entry 2 512 0 512 512 "2.png" /\
    default_slot 4 = slot_entry 4 1536 0 512 512 "4.png" /\
    default_slot 5 = slot_entry 5 0 512 512 512 "5.png" /\
    default_slot 16 = slot_entry 16 1536 1536 512 512 "16.png".
Proof.
  exists (generate_grid_slots DEFAULT_COLS DEFAULT_ROWS DEFAULT_SLOT DEFAULT_SLOT).
  split; [reflexivity|]. split; [reflexivity|].
  split; [|repeat split; reflexivity].
  intros k Hk.
  rewrite generate_grid_slots_nth
    by (unfold DEFAULT_ROWS, DEFAULT_COLS; lia).
  unfold grid_slot, default_slot, DEFAULT_COLS, DEFAULT_SLOT.
  replace (k - 1 + 1) with k by lia.
  rewrite (Z.mul_comm ((k - 1) mod 4)), (Z.mul_comm ((k - 1) / 4)).
  reflexivity.
Qed.

(** ** The validator *)

(** One turn of the loop is the first failing check of the slot, in the
    order of the code. *)
Lemma validate_slot_first_failure (cw ch : Z) (earlier : list value)
  (seen : list Z) (s : value) :
  (forall i, existsb (Z.eqb i) seen = existsb (Z.eqb i) (int_indices earlier)) ->
  match find (fun c => negb (passes c (Some (cw, ch)) earlier s)) code_order with
  | None => exists i, slot_index s = Some i /\
                      validate_slot cw ch seen s = Ok (i :: seen)
  | Some c => validate_slot cw ch seen s
              = Raise (ValueError (slot_message c (Some (cw, ch)) s))
  end.
Proof.
  intros Hseen.
  destruct s as [| b | z | f | str | l | d]; try reflexivity.
  unfold code_order, validate_slot, slot_message, non_integer_property.
  cbn [find passes negb]. unfold slot_index, field, int_of.
  destruct (as_int (dict_get d (py "index"))) as [i|] eqn:Ei; cbn [negb]; [|reflexivity].
  rewrite <- Hseen.
  destruct (Z.leb_spec 1 i) as [H1|H1]; cbn [negb].
  2:{ destruct (Z.ltb_spec i 1); [reflexivity|lia]. }
  destruct (Z.ltb_spec i 1); [lia|].
  destruct (existsb (Z.eqb i) seen); cbn [negb]; [reflexivity|].
  cbn [first_non_int].
  destruct (as_int (dict_get d (py "x"))) as [x|]; [|reflexivity].
  destruct (as_int (dict_get d (py "y"))) as [y|]; [|reflexivity].
  destruct (as_int (dict_get d (py "w"))) as [w|]; [|reflexivity].
  destruct (as_int (dict_get d (py "h"))) as [h|]; [|reflexivity].
  cbn [negb].
  destruct (Z.ltb_spec 0 w), (Z.ltb_spec 0 h), (Z.leb_spec w 0), (Z.leb_spec h 0);
    try lia; cbn [andb orb negb]; try reflexivity.
  destruct (Z.leb_spec 0 x), (Z.ltb_spec x 0); try lia; cbn [andb orb negb];
    try reflexivity.
  destruct (Z.leb_spec 0 y), (Z.ltb_spec y 0); try lia; cbn [andb orb negb];
    try reflexivity.
  rewrite !Z.gtb_ltb.
  destruct (Z.leb_spec (x + w) cw), (Z.ltb_spec cw (x + w)); try lia;
    cbn [andb orb negb]; try reflexivity.
  destruct (Z.leb_spec (y + h) ch), (Z.ltb_spec ch (y + h)); try lia;
    cbn [andb orb negb]; try reflexivity.
  destruct (dict_get d (py "filename")) eqn:Ef;
    try (exists i; split; reflexivity);
    match goal with
    | |- context [is_safe_filename ?v] =>
      destruct (is_safe_filename v); cbn [negb];
        [exists i; split; reflexivity | reflexivity]
    end.
Qed.

Lemma find_app {A} (f : A -> bool) (l1 l2 : list A) :
  find f (l1 ++ l2) = match find f l1 with Some x => Some x | None => find f l2 end.
Proof.
  induction l1 as [|a l1 IH]; simpl; [reflexivity|].
  destruct (f a); [reflexivity | exact IH].
Qed.

Lemma find_map {A B} (f : B -> bool) (g : A -> B) (l : list A) :
  find f (map g l) = option_map g (find (fun a => f (g a)) l).
Proof.
  induction l as [|a l IH]; simpl; [reflexivity|].
  destruct (f (g a)); [reflexivity | exact IH].
Qed.

Lemma find_ext_in {A} (f g : A -> bool) (l : list A) :
  (forall a, In a l -> f a = g a) -> find f l = find g l.
Proof.
  induction l as [|a l IH]; intros H; simpl; [reflexivity|].
  rewrite (H a) by (left; reflexivity).
  destruct (g a); [reflexivity|]. apply IH. intros b Hb. apply H. right. exact Hb.
Qed.

Lemma int_indices_app (l1 l2 : list value) :
  int_indices (l1 ++ l2) = int_indices l1 ++ int_indices l2.
Proof. unfold int_indices. apply flat_map_app. Qed.

Lemma validate_each_first_failure (cfg : dict) (cw ch : Z) :
  canvas_dims cfg = Some (cw, ch) ->
  forall (rest pre : list value) (seen : list Z),
    slot_list cfg = pre ++ rest ->
    (forall i, existsb (Z.eqb i) seen = existsb (Z.eqb i) (int_indices pre)) ->
    validate_each cw ch seen rest =
    match find (fun chk => negb (check_passes cfg chk))
               (slot_checks_from code_order (List.length pre) (List.length rest)) with
    | None => Ok tt
    | Some chk => Raise (ValueError (check_message cfg chk))
    end.
Proof.
  intros Hd. induction rest as [|s rest IH]; intros pre seen Hall Hseen.
  - reflexivity.
  - unfold slot_checks_from. cbn [List.length seq flat_map validate_each].
    rewrite find_app, find_map.
    rewrite (find_ext_in _ (fun c => negb (passes c (Some (cw, ch)) pre s))).
    2:{ intros c _. cbn [check_passes]. rewrite Hd, Hall.
        rewrite firstn_app, firstn_all, Nat.sub_diag, app_nil_r.
        rewrite nth_middle. reflexivity. }
    pose proof (validate_slot_first_failure cw ch pre seen s Hseen) as Hs.
    destruct (find _ code_order) as [c|].
    + rewrite Hs. cbn [bind option_map check_message].
      rewrite Hd, Hall, nth_middle. reflexivity.
    + destruct Hs as [i [Hi Hs]]. rewrite Hs. cbn [bind option_map].
      specialize (IH (pre ++ [s]) (i :: seen)).
      rewrite length_app, Nat.add_1_r in IH. apply IH.
      * rewrite <- app_assoc. exact Hall.
      * intros j. rewrite int_indices_app, existsb_app. cbn [existsb].
        unfold int_indices at 2. cbn [flat_map]. rewrite Hi, app_nil_r.
        cbn [existsb]. rewrite Hseen, orb_false_r. apply orb_comm.
Qed.

Lemma validate_slots_first_failure (cfg : dict) :
  validate_slots cfg = reported code_order cfg.
Proof.
  unfold reported, first_failure, all_checks, validate_slots.
  rewrite find_app. cbn [map find check_passes].
  pose proof (validate_each_first_failure cfg) as H.
  unfold canvas_dims in *.
  destruct (as_int (dict_get cfg (py "canvas_width"))) as [cw|]; [|reflexivity].
  destruct (as_int (dict_get cfg (py "canvas_height"))) as [ch|]; [|reflexivity].
  cbn [negb].
  destruct (Z.ltb_spec 0 cw), (Z.leb_spec cw 0); try lia; cbn [andb orb negb];
    try reflexivity.
  destruct (Z.ltb_spec 0 ch), (Z.leb_spec ch 0); try lia; cbn [andb orb negb];
    try reflexivity.
  rewrite !Z.gtb_ltb.
  destruct (Z.leb_spec cw MAX_CANVAS), (Z.ltb_spec MAX_CANVAS cw); try lia;
    cbn [andb orb negb]; try reflexivity.
  destruct (Z.leb_spec ch MAX_CANVAS), (Z.ltb_spec MAX_CANVAS ch); try lia;
    cbn [andb orb negb]; try reflexivity.
  specialize (H cw ch eq_refl).
  unfold slot_list in *.
  destruct (dict_get cfg (py "slots")) as [| b | z | f | str | [|s sl] | d];
    try reflexivity.
  cbn [negb]. apply (H (s :: sl) [] []); reflexivity.
Qed.

Lemma find_first {A} (f : A -> bool) (before after : list A) (x : A) :
  forallb (fun a => negb (f a)) before = true -> f x = true ->
  find f (before ++ x :: after) = Some x.
Proof.
  intros Hb Hx. rewrite find_app.
  induction before as [|a before IH]; simpl in *.
  - rewrite Hx. reflexivity.
  - apply andb_true_iff in Hb. destruct Hb as [Ha Hb].
    destruct (f a); [discriminate | apply IH; exact Hb].
Qed.

Lemma find_none_forallb {A} (f : A -> bool) (l : list A) :
  find f l = None <-> forallb (fun a => negb (f a)) l = true.
Proof.
  induction l as [|a l IH]; simpl; [tauto|].
  destruct (f a); simpl; [split; discriminate | exact IH].
Qed.

Lemma first_failure_some (order : list slot_check) (cfg : dict) (chk : check) :
  first_failure order cfg = Some chk ->
  check_passes cfg chk = false /\ In chk (all_checks order cfg).
Proof.
  unfold first_failure. intros H. apply find_some in H. destruct H as [Hin Hf].
  split; [|exact Hin]. destruct (check_passes cfg chk); [discriminate | reflexivity].
Qed.

Lemma in_all_checks_clause (order : list slot_check) (cfg : dict) (chk : check) :
  In chk (all_checks order cfg) -> In chk (checks_of (clause_of chk) cfg).
Proof.
  unfold all_checks. intros H. apply in_app_or in H. destruct H as [H | H].
  - apply in_map_iff in H. destruct H as [g [<- _]]. left. reflexivity.
  - apply in_flat_map in H. destruct H as [k [Hk H]].
    apply in_map_iff in H. destruct H as [c [<- _]].
    cbn [clause_of checks_of]. apply in_map_iff. exists k. split; [reflexivity | exact Hk].
Qed.

Lemma code_order_complete (c : slot_check) : In c code_order.
Proof. destruct c; simpl; tauto. Qed.

Lemma checks_of_in_all (cl : clause) (cfg : dict) (chk : check) :
  In chk (checks_of cl cfg) -> In chk (all_checks code_order cfg).
Proof.
  unfold all_checks. destruct cl as [g | c]; cbn [checks_of]; intros H; apply in_or_app.
  - destruct H as [<- | []]. left. destruct g; simpl; tauto.
  - right. apply in_map_iff in H. destruct H as [k [<- Hk]].
    apply in_flat_map. exists k. split; [exact Hk|].
    apply in_map. apply code_order_complete.
Qed.

Lemma names_check_message (cfg : dict) (chk : check) :
  names (check_message cfg chk) (clause_of chk) = true.
Proof.
  destruct chk as [g | k c]; [destruct g; reflexivity|].
  cbn [check_message clause_of]. unfold slot_message.
  destruct c; try reflexivity.
  destruct (match canvas_dims cfg with Some d => d | None => (0, 0) end); reflexivity.
Qed.

Lemma clause_eq_dec (a b : clause) : {a = b} + {a <> b}.
Proof. repeat decide equality. Qed.

Lemma holds_false_fails (cl : clause) (cfg : dict) :
  holds cl cfg = false ->
  exists chk, In chk (checks_of cl cfg) /\ check_passes cfg chk = false.
Proof.
  unfold holds. induction (checks_of cl cfg) as [|a l IH]; simpl; [discriminate|].
  destruct (check_passes cfg a) eqn:E; simpl.
  - intros H. destruct (IH H) as [chk [Hin Hf]]. exists chk. split; [right; exact Hin | exact Hf].
  - intros _. exists a. split; [left; reflexivity | exact E].
Qed.

Lemma holds_true_passes (cl : clause) (cfg : dict) (chk : check) :
  holds cl cfg = true -> In chk (checks_of cl cfg) -> check_passes cfg chk = true.
Proof. unfold holds. intros H Hin. rewrite forallb_forall in H. apply H. exact Hin. Qed.

(** Accepted exactly when every clause holds. *)
Lemma validate_slots_ok_clauses (cfg : dict) :
  validate_slots cfg = Ok tt <-> forall cl, holds cl cfg = true.
Proof.
  rewrite validate_slots_first_failure. unfold reported. split.
  - destruct (first_failure code_order cfg) as [chk|] eqn:E; [intros H; discriminate H|].
    intros _ cl. unfold holds. apply forallb_forall. intros chk Hin.
    unfold first_failure in E.
    pose proof (find_none _ _ E chk (checks_of_in_all cl cfg chk Hin)) as H.
    cbv beta in H. destruct (check_passes cfg chk); [reflexivity | discriminate H].
  - intros H. destruct (first_failure code_order cfg) as [chk|] eqn:E; [|reflexivity].
    apply first_failure_some in E. destruct E as [Hf Hin].
    apply in_all_checks_clause in Hin.
    rewrite (holds_true_passes _ _ _ (H (clause_of chk)) Hin) in Hf. discriminate.
Qed.

(** A single violated clause is the one the message names. *)
Lemma validate_slots_alone (cfg : dict) (cl : clause) :
  holds cl cfg = false ->
  (forall cl', cl' <> cl -> holds cl' cfg = true) ->
  exists m, validate_slots cfg = Raise (ValueError m) /\ names m cl = true.
Proof.
  intros Hcl Hothers. rewrite validate_slots_first_failure. unfold reported.
  destruct (first_failure code_order cfg) as [chk|] eqn:E.
  - exists (check_message cfg chk). split; [reflexivity|].
    apply first_failure_some in E. destruct E as [Hf Hin].
    apply in_all_checks_clause in Hin.
    destruct (clause_eq_dec (clause_of chk) cl) as [<- | Hne].
    + apply names_check_message.
    + rewrite (holds_true_passes _ _ _ (Hothers _ Hne) Hin) in Hf. discriminate.
  - exfalso. destruct (holds_false_fails _ _ Hcl) as [chk [Hin Hf]].
    unfold first_failure in E.
    pose proof (find_none _ _ E chk (checks_of_in_all cl cfg chk Hin)) as H.
    cbv beta in H. rewrite Hf in H. discriminate H.
Qed.

Lemma existsb_eqb_in (i : Z) (l : list Z) :
  existsb (Z.eqb i) l = true <-> In i l.
Proof.
  rewrite existsb_exists. split.
  - intros [x [Hin E]]. apply Z.eqb_eq in E. subst x. exact Hin.
  - intros H. exists i. split; [exact H | apply Z.eqb_refl].
Qed.

Lemma validate_slot_ok (cw ch : Z) (seen seen' : list Z) (s : value) :
  validate_slot cw ch seen s = Ok seen' <->
  slot_well_formed cw ch s /\
  exists i, slot_index s = Some i /\ ~ In i seen /\ seen' = i :: seen.
Proof.
  split.
  - destruct s as [| b | z | f | str | l | d]; try discriminate.
    unfold validate_slot, slot_well_formed, slot_index, field, int_of.
    cbn [first_non_int].
    destruct (as_int (dict_get d (py "index"))) as [i|] eqn:Ei; [|discriminate].
    destruct (Z.ltb_spec i 1); [discriminate|].
    destruct (existsb (Z.eqb i) seen) eqn:Es; [discriminate|].
    destruct (as_int (dict_get d (py "x"))) as [x|] eqn:Ex; [|discriminate].
    destruct (as_int (dict_get d (py "y"))) as [y|] eqn:Ey; [|discriminate].
    destruct (as_int (dict_get d (py "w"))) as [w|] eqn:Ew; [|discriminate].
    destruct (as_int (dict_get d (py "h"))) as [h|] eqn:Eh; [|discriminate].
    destruct (Z.leb_spec w 0); [discriminate|].
    destruct (Z.leb_spec h 0); [discriminate|]. cbn [orb].
    destruct (Z.ltb_spec x 0); [discriminate|].
    destruct (Z.ltb_spec y 0); [discriminate|]. cbn [orb].
    rewrite !Z.gtb_ltb.
    destruct (Z.ltb_spec cw (x + w)); [discriminate|].
    destruct (Z.ltb_spec ch (y + h)); [discriminate|]. cbn [orb].
    intros Hok.
    assert (Hf : (dict_get d (py "filename") = VNone \/
                  is_safe_filename (dict_get d (py "filename")) = true)
                 /\ seen' = i :: seen).
    { destruct (dict_get d (py "filename")) eqn:Ef;
        try (split; [left; reflexivity | congruence]);
        match type of Hok with
        | context [is_safe_filename ?v] =>
          destruct (is_safe_filename v) eqn:Esafe;
            [split; [right; reflexivity | congruence] | discriminate]
        end. }
    destruct Hf as [Hf ->].
    split.
    + exists d, i, x, y, w, h. repeat split; try assumption; try lia.
    + exists i. repeat split. intros C. apply existsb_eqb_in in C. congruence.
  - intros [[d [i [x [y [w [h Hwf]]]]]] [i' [Hi [Hns ->]]]].
    destruct Hwf as (-> & Ei & Ex & Ey & Ew & Eh & H1 & Hw & Hh & Hx & Hy & Hxw & Hyh & Hf).
    unfold slot_index, field in Hi. rewrite Ei in Hi. injection Hi as <-.
    unfold validate_slot, int_of. cbn [first_non_int].
    rewrite Ei, Ex, Ey, Ew, Eh.
    destruct (Z.ltb_spec i 1); [lia|].
    destruct (existsb (Z.eqb i) seen) eqn:Es;
      [exfalso; apply Hns; apply existsb_eqb_in; exact Es|].
    destruct (Z.leb_spec w 0); [lia|].
    destruct (Z.leb_spec h 0); [lia|]. cbn [orb].
    destruct (Z.ltb_spec x 0); [lia|].
    destruct (Z.ltb_spec y 0); [lia|]. cbn [orb].
    rewrite !Z.gtb_ltb.
    destruct (Z.ltb_spec cw (x + w)); [lia|].
    destruct (Z.ltb_spec ch (y + h)); [lia|]. cbn [orb].
    destruct Hf as [-> | Hf]; [reflexivity|].
    rewrite Hf. destruct (dict_get d (py "filename")); reflexivity.
Qed.

Lemma validate_each_ok (cw ch : Z) (sl : list value) (seen : list Z) :
  validate_each cw ch seen sl = Ok tt <->
  Forall (slot_well_formed cw ch) sl /\
  NoDup (int_indices sl) /\
  (forall i, In i (int_indices sl) -> ~ In i seen).
Proof.
  revert seen. induction sl as [|s sl IH]; intros seen.
  - simpl. split; [intros _ | reflexivity].
    repeat split; [constructor | constructor | intros i []].
  - cbn [validate_each]. split.
    + destruct (validate_slot cw ch seen s) as [seen'|e] eqn:E; [|discriminate].
      cbn [bind]. intros H. apply validate_slot_ok in E.
      destruct E as [Hwf [i [Hi [Hns ->]]]].
      apply IH in H. destruct H as [Hall [Hnd Hdis]].
      unfold int_indices in *. cbn [flat_map]. rewrite Hi.
      repeat split.
      * constructor; assumption.
      * cbn [app]. constructor; [|exact Hnd].
        intros Hin. apply (Hdis i Hin). left. reflexivity.
      * cbn [app]. intros j [<- | Hj]; [exact Hns|].
        intros Hs. apply (Hdis j Hj). right. exact Hs.
    + intros [Hall [Hnd Hdis]]. inversion Hall as [|? ? Hwf Hall']; subst.
      assert (Hi : exists i, slot_index s = Some i).
      { destruct Hwf as [d [i [x [y [w [h Hwf]]]]]].
        destruct Hwf as (-> & Ei & _). exists i. exact Ei. }
      destruct Hi as [i Hi].
      unfold int_indices in Hnd, Hdis. cbn [flat_map] in Hnd, Hdis.
      rewrite Hi in Hnd, Hdis. cbn [app] in Hnd, Hdis.
      assert (E : validate_slot cw ch seen s = Ok (i :: seen)).
      { apply validate_slot_ok. split; [exact Hwf|]. exists i.
        repeat split; [exact Hi|]. apply Hdis. left. reflexivity. }
      rewrite E. cbn [bind]. apply IH. inversion Hnd as [|? ? Hni Hnd']; subst.
      repeat split; [exact Hall' | exact Hnd' |].
      intros j Hj [<- | Hs]; [exact (Hni Hj)|].
      apply (Hdis j); [right; exact Hj | exact Hs].
Qed.

Lemma validate_slots_ok (cfg : dict) :
  validate_slots cfg = Ok tt <-> well_formed cfg.
Proof.
  unfold validate_slots, well_formed. split.
  - destruct (as_int (dict_get cfg (py "canvas_width"))) as [cw|]; [|discriminate].
    destruct (as_int (dict_get cfg (py "canvas_height"))) as [ch|]; [|discriminate].
    destruct (Z.leb_spec cw 0); [discriminate|].
    destruct (Z.leb_spec ch 0); [discriminate|]. cbn [orb].
    rewrite !Z.gtb_ltb.
    destruct (Z.ltb_spec MAX_CANVAS cw); [discriminate|].
    destruct (Z.ltb_spec MAX_CANVAS ch); [discriminate|]. cbn [orb].
    unfold MAX_CANVAS in *.
    destruct (dict_get cfg (py "slots")) as [| b | z | f | str | [|s sl] | d];
      try discriminate.
    intros Hok. apply validate_each_ok in Hok. destruct Hok as [Hall [Hnd _]].
    exists cw, ch, (s :: sl). repeat split; try assumption; try lia. discriminate.
  - intros (cw & ch & sl & -> & -> & Hcw & Hch & -> & Hne & Hall & Hnd).
    destruct (Z.leb_spec cw 0); [lia|].
    destruct (Z.leb_spec ch 0); [lia|]. cbn [orb].
    rewrite !Z.gtb_ltb. unfold MAX_CANVAS.
    destruct (Z.ltb_spec 2048 cw); [lia|].
    destruct (Z.ltb_spec 2048 ch); [lia|]. cbn [orb].
    destruct sl as [|s sl]; [congruence|].
    apply validate_each_ok. repeat split; [exact Hall | exact Hnd | intros i _ []].
Qed.

(** C1.  [validate_slots] returns without raising exactly on the
    configurations whose canvas sides are integers in 1..2048, whose slots
    are a non-empty list of entries with integer index, x, y, w, h, index
    >= 1, pairwise distinct indices, w > 0, h > 0, the rectangle inside the
    canvas, and a safe filename when one is present; that is, exactly when
    every clause holds.  It raises nothing but [ValueError], and when one
    clause alone is violated the message of the [ValueError] names that
    clause. *)
Theorem validate_slots_accepts_iff (cfg : dict) :
  (validate_slots cfg = Ok tt <-> well_formed cfg) /\
  (well_formed cfg <-> forall cl, holds cl cfg = true) /\
  (validate_slots cfg = Ok tt \/
   exists m, validate_slots cfg = Raise (ValueError m)) /\
  (forall cl,
     holds cl cfg = false ->
     (forall cl', cl' <> cl -> holds cl' cfg = true) ->
     exists m, validate_slots cfg = Raise (ValueError m) /\ names m cl = true).
Proof.
  split; [apply validate_slots_ok|].
  split; [rewrite <- validate_slots_ok; apply validate_slots_ok_clauses|].
  split; [|apply validate_slots_alone].
  rewrite validate_slots_first_failure. unfold reported.
  destruct (first_failure code_order cfg) as [chk|];
    [right; eexists; reflexivity | left; reflexivity].
Qed.

Lemma validate_slots_accepts_iff_witness :
  exists m, validate_slots zero_width_cfg = Raise (ValueError m) /\
            names m (SlotClause SizePositive) = true.
Proof.
  apply (proj2 (proj2 (proj2 (validate_slots_accepts_iff zero_width_cfg)))).
  - reflexivity.
  - intros cl' Hne. destruct cl' as [[]|[]]; try reflexivity. congruence.
Defined.

(** C7 (as amended).  [validate_slots] reports the first failing check in
    this order: the canvas sides are integers, are positive, are at most
    [MAX_CANVAS]; the slots are a non-empty list; then slot after slot: the
    entry is an object, its index is an integer, the index is >= 1, the
    index was not seen before, x, y, w, h are integers, w and h are
    positive, the rectangle is inside the canvas, the filename is safe.
    When every check before a failing check passes, the [ValueError] is the
    one of that check; when all pass, nothing is raised. *)
Theorem validate_slots_check_order (cfg : dict) :
  validate_slots cfg = reported code_order cfg /\
  (forall before chk after,
     all_checks code_order cfg = before ++ chk :: after ->
     forallb (check_passes cfg) before = true ->
     check_passes cfg chk = false ->
     validate_slots cfg = Raise (ValueError (check_message cfg chk))) /\
  (forallb (check_passes cfg) (all_checks code_order cfg) = true ->
   validate_slots cfg = Ok tt).
Proof.
  split; [apply validate_slots_first_failure|].
  rewrite validate_slots_first_failure. unfold reported, first_failure. split.
  - intros before chk after -> Hb Hc.
    rewrite (find_first _ before after chk).
    + reflexivity.
    + rewrite forallb_forall in *. intros a Ha. rewrite (Hb a Ha). reflexivity.
    + rewrite Hc. reflexivity.
  - intros H.
    replace (find _ _) with (@None check); [reflexivity|].
    symmetry. apply find_none_forallb.
    rewrite forallb_forall in *. intros a Ha. rewrite (H a Ha). reflexivity.
Qed.

Lemma validate_slots_check_order_witness :
  validate_slots order_cfg = Raise (ValueError (DuplicateIndex 1)).
Proof.
  exact (proj1 (proj2 (validate_slots_check_order order_cfg))
           (firstn 15 (all_checks code_order order_cfg))
           (OnSlot 1 IndexNotSeen)
           (skipn 16 (all_checks code_order order_cfg))
           eq_refl eq_refl eq_refl).
Defined.

(** C7 as it is written fails: with the checks of a slot in the listed
    order (all five fields are integers before index >= 1 and the duplicate
    check), the second slot of [order_cfg], a duplicate of index 1 whose x
    is not an integer, would be reported for its x; [validate_slots] reports
    the duplicate index. *)
Lemma validate_slots_listed_order_counterexample :
  validate_slots order_cfg = Raise (ValueError (DuplicateIndex 1)) /\
  reported listed_order order_cfg
  = Raise (ValueError (PropertyNotInteger 1 (py "x"))) /\
  validate_slots order_cfg <> reported listed_order order_cfg.
Proof.
  split; [reflexivity|]. split; [reflexivity|].
  intros H. vm_compute in H. discriminate H.
Qed.

(** ** Resize to cover, centre crop *)







Section Fit.

Context {PIL : Pillow}.
Variable int_of_str : pystr -> option Z.


End Fit.



(** ** The compositor *)

(** *** Default filenames *)

Lemma uint_chars_digits (u : Decimal.uint) : Forall is_digit (uint_chars u).
Proof.
  induction u; cbn [uint_chars]; constructor; try assumption; unfold is_digit; lia.
Qed.

Lemma uint_chars_nonnil (u : Decimal.uint) : u <> Nil -> uint_chars u <> [].
Proof. destruct u; cbn [uint_chars]; congruence. Qed.

Lemma str_of_int_positive (idx : Z) :
  1 <= idx -> str_of_int idx <> [] /\ Forall is_digit (str_of_int idx).
Proof.
  intros H. destruct idx as [|p|p]; try lia.
  unfold str_of_int. cbn [Z.to_int]. split.
  - apply uint_chars_nonnil. apply Unsigned.to_uint_nonnil.
  - apply uint_chars_digits.
Qed.

Lemma str_in_skip_digits (c : Z) (sub ds t : pystr) :
  ~ is_digit c -> Forall is_digit ds ->
  str_in (c :: sub) (ds ++ t) = str_in (c :: sub) t.
Proof.
  intros Hc Hds. induction Hds as [|d ds Hd Hds IH]; [reflexivity|].
  rewrite <- app_comm_cons. cbn [str_in startswith].
  destruct (Z.eqb_spec c d) as [-> | _]; [contradiction|].
  cbn [andb orb]. exact IH.
Qed.

Lemma digits_png_safe (ds : pystr) :
  ds <> [] -> Forall is_digit ds ->
  is_safe_filename (VStr (ds ++ py ".png")) = true.
Proof.
  intros Hne Hds. unfold is_safe_filename.
  assert (H47 : ~ is_digit 47) by (unfold is_digit; lia).
  assert (H92 : ~ is_digit 92) by (unfold is_digit; lia).
  assert (H46 : ~ is_digit 46) by (unfold is_digit; lia).
  change (py "..") with [46; 46]. change (py "/") with [47].
  change (py "\") with [92].
  rewrite !str_in_skip_digits by assumption.
  destruct ds as [|d ds]; [congruence|].
  inversion Hds as [|? ? Hd _]; subst.
  rewrite <- app_comm_cons. cbn [str_eqb startswith].
  destruct (Z.eqb_spec 47 d) as [<- | _]; [contradiction|].
  destruct (Z.eqb_spec 92 d) as [<- | _]; [contradiction|].
  reflexivity.
Qed.

Lemma default_name_safe (idx : Z) :
  1 <= idx -> is_safe_filename (VStr (str_of_int idx ++ py ".png")) = true.
Proof.
  intros H. destruct (str_of_int_positive idx H). apply digits_png_safe; assumption.
Qed.

(** *** Sorting *)

Lemma insert_by_perm {K A} (leb : K -> K -> bool) (x : K * A) (l : list (K * A)) :
  Permutation (insert_by leb x l) (x :: l).
Proof.
  induction l as [|y l IH]; cbn [insert_by]; [reflexivity|].
  destruct (leb (fst x) (fst y)); [reflexivity|].
  rewrite IH. apply perm_swap.
Qed.

Lemma sorted_by_perm {K A} (leb : K -> K -> bool) (l : list (K * A)) :
  Permutation (sorted_by leb l) l.
Proof.
  induction l as [|x l IH]; cbn [sorted_by fold_right]; [reflexivity|].
  rewrite insert_by_perm. constructor. exact IH.
Qed.

Lemma mapM_length {A B} (f : A -> result B) (l : list A) (bs : list B) :
  mapM f l = Ok bs -> List.length bs = List.length l.
Proof.
  revert bs. induction l as [|a l IH]; cbn [mapM]; intros bs H.
  - injection H as <-. reflexivity.
  - destruct (f a) as [b|e]; [|discriminate]. cbn [bind] in H.
    destruct (mapM f l) as [bs'|e]; [|discriminate]. cbn [bind] in H.
    injection H as <-. cbn [List.length]. f_equal. apply IH. reflexivity.
Qed.

Lemma map_snd_combine {A B} (a : list A) (b : list B) :
  List.length a = List.length b -> map snd (combine a b) = b.
Proof.
  revert b. induction a as [|x a IH]; intros [|y b] H; try discriminate; [reflexivity|].
  cbn [combine map snd]. f_equal. apply IH. injection H as H. exact H.
Qed.

Section BuildFacts.

Context {PIL : Pillow}.
Variable int_of_str : pystr -> option Z.

Lemma sort_slots_perm (sl sorted : list value) :
  sort_slots int_of_str sl = Ok sorted -> Permutation sorted sl.
Proof.
  unfold sort_slots. destruct (mapM _ sl) as [keys|e] eqn:E; [|discriminate].
  cbn [bind]. intros H. injection H as <-.
  rewrite sorted_by_perm. rewrite map_snd_combine; [reflexivity|].
  apply mapM_length in E. exact E.
Qed.

Lemma py_int_as_int (v : value) (i : Z) :
  as_int v = Some i -> py_int int_of_str v = Ok i.
Proof. destruct v; cbn; congruence. Qed.

Lemma int_at_as_int (d : dict) (k : pystr) (i : Z) :
  as_int (dict_get d k) = Some i -> int_at int_of_str d k = Ok i.
Proof.
  unfold int_at, dict_get, dict_index. destruct (dict_find d k) as [v|].
  - cbn [bind]. apply py_int_as_int.
  - discriminate.
Qed.

(** What the compositor reads from a slot the validator accepted. *)
Lemma slot_fields (cw ch : Z) (sd : dict) :
  slot_well_formed cw ch (VDict sd) ->
  exists idx x y w h fname,
    int_at int_of_str sd (py "index") = Ok idx /\
    int_at int_of_str sd (py "x") = Ok x /\
    int_at int_of_str sd (py "y") = Ok y /\
    int_at int_of_str sd (py "w") = Ok w /\
    int_at int_of_str sd (py "h") = Ok h /\
    1 <= idx /\ 0 < w /\ 0 < h /\
    resolve_filename sd idx = VStr fname /\
    is_safe_filename (VStr fname) = true /\
    (dict_get sd (py "filename") = VNone -> fname = str_of_int idx ++ py ".png") /\
    (forall s, dict_get sd (py "filename") = VStr s -> fname = s).
Proof.
  intros (d & idx & x & y & w & h & E & Ei & Ex & Ey & Ew & Eh & H1 & Hw & Hh & _ & _ & _ & _ & Hf).
  injection E as <-.
  assert (Hname : exists fname,
             resolve_filename sd idx = VStr fname /\
             is_safe_filename (VStr fname) = true /\
             (dict_get sd (py "filename") = VNone -> fname = str_of_int idx ++ py ".png") /\
             (forall s, dict_get sd (py "filename") = VStr s -> fname = s)).
  { unfold resolve_filename. destruct Hf as [Hf | Hf].
    - rewrite Hf. cbn [truthy]. eexists. split; [reflexivity|].
      split; [apply default_name_safe; exact H1|]. split; [reflexivity | discriminate].
    - destruct (dict_get sd (py "filename")) as [| b | z | f | s | l | d];
        try discriminate Hf.
      destruct s as [|c s]; [discriminate Hf|]. cbn [truthy].
      eexists. split; [reflexivity|]. split; [exact Hf|].
      split; [discriminate | intros s' E; injection E as <-; reflexivity]. }
  destruct Hname as [fname Hname].
  exists idx, x, y, w, h, fname.
  repeat (split; [first [apply int_at_as_int; assumption | assumption]|]).
  exact Hname.
Qed.

(** *** Which exceptions can be the unsafe-filename abort *)

Lemma benign_ok {A} (a : A) : benign (Ok a).
Proof. intros f i; discriminate. Qed.

Lemma benign_bind {A B} (r : result A) (k : A -> result B) :
  benign r -> (forall a, r = Ok a -> benign (k a)) -> benign (bind r k).
Proof.
  intros Hr Hk. destruct r as [a|e]; cbn [bind].
  - apply Hk. reflexivity.
  - intros f i E. injection E as ->. apply (Hr f i). reflexivity.
Qed.

Lemma benign_py_int (v : value) : benign (py_int int_of_str v).
Proof.
  intros f i. destruct v as [| b | z | [q | n |] | s | l | d]; cbn [py_int];
    try discriminate.
  destruct (int_of_str s); discriminate.
Qed.

Lemma benign_dict_index (d : dict) (k : pystr) : benign (dict_index d k).
Proof. intros f i. unfold dict_index. destruct (dict_find d k); discriminate. Qed.

Lemma benign_int_at (d : dict) (k : pystr) : benign (int_at int_of_str d k).
Proof.
  unfold int_at. apply benign_bind; [apply benign_dict_index|].
  intros v _. apply benign_py_int.
Qed.

Lemma benign_mapM {A B} (f : A -> result B) (l : list A) :
  (forall a, In a l -> benign (f a)) -> benign (mapM f l).
Proof.
  induction l as [|a l IH]; intros H; cbn [mapM]; [apply benign_ok|].
  apply benign_bind; [apply H; left; reflexivity|]. intros b _.
  apply benign_bind; [apply IH; intros x Hx; apply H; right; exact Hx|].
  intros bs _. apply benign_ok.
Qed.

Lemma benign_foldM {S A} (f : S -> A -> result S) (l : list A) (st : S) :
  (forall a s, In a l -> benign (f s a)) -> benign (foldM f st l).
Proof.
  revert st. induction l as [|a l IH]; intros st H; cbn [foldM]; [apply benign_ok|].
  apply benign_bind; [apply H; left; reflexivity|]. intros s' _.
  apply IH. intros x s Hx. apply H. right. exact Hx.
Qed.

Lemma benign_validate_slots (cfg : dict) : benign (validate_slots cfg).
Proof.
  intros f i. rewrite validate_slots_first_failure. unfold reported.
  destruct (first_failure code_order cfg) as [chk|]; [|discriminate].
  destruct chk as [[]|k []]; cbn [check_message]; unfold slot_message;
    try discriminate.
  destruct (match canvas_dims cfg with Some d => d | None => (0, 0) end); discriminate.
Qed.

Lemma benign_cover_geometry (a b c d : Z) : benign (cover_geometry a b c d).
Proof.
  intros f i. unfold cover_geometry. destruct ((c =? 0) || (d =? 0)); discriminate.
Qed.

Lemma benign_fit_and_paste (cv img : image) (sd : dict) :
  benign (fit_and_paste int_of_str cv sd img).
Proof.
  unfold fit_and_paste.
  apply benign_bind; [apply benign_int_at|]. intros w _.
  apply benign_bind; [apply benign_int_at|]. intros h _.
  destruct (size img) as [w_img h_img].
  apply benign_bind; [apply benign_cover_geometry|]. intros [[[nw nh] l] t] _.
  apply benign_bind; [apply benign_int_at|]. intros x _.
  apply benign_bind; [apply benign_int_at|]. intros y _.
  apply benign_ok.
Qed.

Lemma benign_resolve_source (atlas_name : pystr) (folder : folder_state)
  (ph : option image) (fname : pystr) (idx : Z) :
  benign (resolve_source atlas_name folder ph fname idx).
Proof.
  intros f i. unfold resolve_source.
  destruct (file_at folder fname); try discriminate. destruct ph; discriminate.
Qed.

(** The turn of an accepted slot does not abort on its filename. *)
Lemma benign_build_slot (cw ch : Z) (atlas_name : pystr) (folder : folder_state)
  (ph : option image) (st : build_state) (s : value) :
  slot_well_formed cw ch s ->
  benign (build_slot int_of_str atlas_name folder ph st s).
Proof.
  intros Hwf. assert (Hd : exists sd, s = VDict sd).
  { destruct Hwf as (d & ? & ? & ? & ? & ? & E & _). exists d. exact E. }
  destruct Hd as [sd ->].
  destruct (slot_fields cw ch sd Hwf)
    as (idx & x & y & w & h & fname & Ei & Ex & Ey & Ew & Eh & _ & _ & _ & Hn & Hs & _).
  unfold build_slot. rewrite Ei. cbn [bind]. rewrite Hn, Hs. cbn [negb].
  apply benign_bind; [apply benign_resolve_source|]. intros [[img src] wn] _.
  apply benign_bind.
  { destruct img; [apply benign_fit_and_paste | apply benign_ok]. }
  intros cv _. rewrite Ex, Ey, Ew, Eh. cbn [bind]. apply benign_ok.
Qed.

Lemma dict_index_get (d : dict) (k : pystr) :
  dict_get d k <> VNone -> dict_index d k = Ok (dict_get d k).
Proof.
  unfold dict_get, dict_index. destruct (dict_find d k); [reflexivity | congruence].
Qed.

Lemma benign_compose (atlas_name : pystr) (folder : folder_state) (cfg : dict) :
  validate_slots cfg = Ok tt ->
  benign (compose int_of_str atlas_name folder cfg).
Proof.
  intros Hv. apply validate_slots_ok in Hv.
  destruct Hv as (cw & ch & sl & Ecw & Ech & _ & _ & Esl & _ & Hall & _).
  unfold compose.
  rewrite (dict_index_get cfg (py "canvas_width"))
    by (intros E; rewrite E in Ecw; discriminate).
  rewrite (dict_index_get cfg (py "canvas_height"))
    by (intros E; rewrite E in Ech; discriminate).
  rewrite (dict_index_get cfg (py "slots")) by (rewrite Esl; discriminate).
  cbn [bind]. rewrite Ecw, Ech, Esl.
  apply benign_bind.
  { intros f i. destruct (file_at folder (py "placeholder.png")); discriminate. }
  intros ph _. cbn [bind].
  destruct (sort_slots int_of_str sl) as [sorted|e] eqn:Es.
  - cbn [bind]. apply benign_bind.
    + apply benign_foldM. intros s st Hin. apply (benign_build_slot cw ch).
      rewrite Forall_forall in Hall. apply Hall.
      apply (Permutation_in s (sort_slots_perm _ _ Es)). exact Hin.
    + intros st _. intros f i. destruct (save_ok folder); discriminate.
  - cbn [bind]. intros f i E. revert f i E. fold (benign (@Raise atlas e)).
    assert (Hb : benign (sort_slots int_of_str sl)).
    { unfold sort_slots. apply benign_bind.
      - apply benign_mapM. intros s _. unfold slot_key.
        destruct s; try (intros ? ?; discriminate). apply benign_int_at.
      - intros keys _. apply benign_ok. }
    rewrite Es in Hb. intros f i E. apply (Hb f i). congruence.
Qed.

Ltac benign_step :=
  first [ apply benign_ok
        | apply benign_py_int
        | apply benign_dict_index
        | apply benign_int_at
        | apply benign_validate_slots
        | (intros ? ?; discriminate)
        | (apply benign_bind; [|intros ? _]) ].

Lemma benign_normalize_slot (s : value) : benign (normalize_slot int_of_str s).
Proof.
  destruct s as [| b | z | f | str | l | d]; cbn [normalize_slot];
    try (intros ? ?; discriminate).
  apply benign_bind.
  { destruct (dict_has d (py "index")); repeat benign_step. }
  intros ? _. repeat benign_step.
Qed.

Lemma benign_load_config (c : config_file) : benign (load_config int_of_str c).
Proof.
  destruct c as [| | raw]; cbn [load_config]; try (intros ? ?; discriminate).
  destruct raw as [| b | z | f | str | l | d]; try (intros ? ?; discriminate).
  destruct (dict_find d (py "slots")) as [[| b | z | f | str | sl | d']|];
    try (unfold load_grid; repeat benign_step;
         match goal with |- benign (if ?c then _ else _) => destruct c end;
         repeat benign_step).
  unfold load_explicit. apply benign_bind.
  { apply benign_mapM. intros s _. apply benign_normalize_slot. }
  intros ? _. repeat benign_step.
Qed.

(** Whatever [load_config] returns has passed [validate_slots]. *)
Lemma load_config_validated (c : config_file) (cfg : dict) :
  load_config int_of_str c = Ok cfg -> validate_slots cfg = Ok tt.
Proof.
  assert (Hlast : forall cfg0 : dict,
             (validate_slots cfg0 ;;; Ok cfg0) = Ok cfg -> validate_slots cfg = Ok tt).
  { intros cfg0 H. destruct (validate_slots cfg0) as [[]|e] eqn:E; [|discriminate].
    cbn [bind] in H. injection H as <-. exact E. }
  destruct c as [| | raw]; cbn [load_config].
  - intros H. injection H as <-. reflexivity.
  - discriminate.
  - destruct raw as [| b | z | f | str | l | d]; try discriminate.
    assert (Hgrid : load_grid int_of_str d = Ok cfg -> validate_slots cfg = Ok tt).
    { unfold load_grid.
      repeat match goal with
             | |- bind (validate_slots _) _ = Ok _ -> _ => fail 1
             | |- bind ?r _ = Ok _ -> _ =>
               destruct r; [cbn [bind] | discriminate]
             end.
      match goal with |- (if ?c then _ else _) = _ -> _ => destruct c end;
        [discriminate | apply Hlast]. }
    destruct (dict_find d (py "slots")) as [[| b | z | f | str | sl | d']|];
      try exact Hgrid.
    unfold load_explicit.
    repeat match goal with
           | |- bind (validate_slots _) _ = Ok _ -> _ => fail 1
           | |- bind ?r _ = Ok _ -> _ =>
             destruct r; [cbn [bind] | discriminate]
           end.
    apply Hlast.
Qed.

Lemma benign_build_atlas (atlas_name : pystr) (folder : folder_state) :
  benign (build_atlas int_of_str atlas_name folder).
Proof.
  unfold build_atlas. destruct (makedirs_ok folder); [|intros ? ?; discriminate].
  apply benign_bind; [apply benign_load_config|].
  intros cfg Hcfg. apply benign_compose. apply (load_config_validated _ _ Hcfg).
Qed.

(** *** One turn of the slot loop *)




Lemma slot_list_get (cfg : dict) (sl : list value) :
  dict_get cfg (py "slots") = VList sl -> slot_list cfg = sl.
Proof. unfold slot_list. intros ->. reflexivity. Qed.


(** The turn of a slot with its fields read. *)
Lemma build_slot_turn (atlas_name : pystr) (folder : folder_state)
  (ph : option image) (st : build_state) (sd : dict)
  (idx x y w h : Z) (fname : pystr) :
  int_at int_of_str sd (py "index") = Ok idx ->
  int_at int_of_str sd (py "x") = Ok x ->
  int_at int_of_str sd (py "y") = Ok y ->
  int_at int_of_str sd (py "w") = Ok w ->
  int_at int_of_str sd (py "h") = Ok h ->
  resolve_filename sd idx = VStr fname ->
  is_safe_filename (VStr fname) = true ->
  build_slot int_of_str atlas_name folder ph st (VDict sd) =
  (r <- resolve_source atlas_name folder ph fname idx ;;
   let '(img, source_used, warned) := r in
   cv <- match img with
         | Some img => fit_and_paste int_of_str (canvas st) sd img
         | None => Ok (canvas st)
         end ;;
   Ok {| canvas := cv;
         mapping := mapping_set (mapping st) (str_of_int idx)
                      {| m_x := x; m_y := y; m_w := w; m_h := h;
                         source := source_used |};
         warnings := warnings st ++ warned |}).
Proof.
  intros Ei Ex Ey Ew Eh Hn Hs. unfold build_slot.
  rewrite Ei. cbn [bind]. rewrite Hn, Hs. cbn [negb].
  destruct (resolve_source atlas_name folder ph fname idx) as [[[img src] wn]|e];
    [|reflexivity].
  cbn [bind]. destruct (match img with Some _ => _ | None => _ end); [|reflexivity].
  cbn [bind]. rewrite Ex, Ey, Ew, Eh. reflexivity.
Qed.


Lemma mapping_set_Forall (P : pystr * resolved_slot -> Prop)
  (m : list (pystr * resolved_slot)) (k : pystr) (v : resolved_slot) :
  Forall P m -> (forall k', P (k', v)) -> Forall P (mapping_set m k v).
Proof.
  intros Hm Hv. induction Hm as [|[k' v'] m Hx Hm IH]; cbn [mapping_set].
  - constructor; [apply Hv | constructor].
  - destruct (str_eqb k' k); constructor; try assumption. apply Hv.
Qed.

(** With no file for any slot and no placeholder every turn leaves the
    canvas as it is, records a null source and adds one warning. *)
Lemma foldM_all_missing (cw ch : Z) (atlas_name : pystr) (folder : folder_state)
  (sl : list value) (st : build_state) :
  (forall nm, file_at folder nm = Missing) ->
  Forall (slot_well_formed cw ch) sl ->
  Forall (fun e => source (snd e) = None) (mapping st) ->
  exists st',
    foldM (build_slot int_of_str atlas_name folder None) st sl = Ok st' /\
    canvas st' = canvas st /\
    Forall (fun e => source (snd e) = None) (mapping st') /\
    List.length (warnings st') = (List.length (warnings st) + List.length sl)%nat.
Proof.
  intros Hmiss Hall. revert st. induction Hall as [|s sl Hwf Hall IH]; intros st Hm.
  - exists st. cbn [foldM List.length]. rewrite Nat.add_0_r. repeat split. exact Hm.
  - assert (Hd : exists sd, s = VDict sd).
    { destruct Hwf as (d & ? & ? & ? & ? & ? & E & _). exists d. exact E. }
    destruct Hd as [sd ->].
    destruct (slot_fields cw ch sd Hwf)
      as (idx & x & y & w & h & fname & Ei & Ex & Ey & Ew & Eh & _ & _ & _ & Hn & Hs & _).
    cbn [foldM].
    rewrite (build_slot_turn _ _ _ _ _ _ _ _ _ _ _ Ei Ex Ey Ew Eh Hn Hs).
    unfold resolve_source. rewrite Hmiss. cbn [bind].
    match goal with
    | |- context [foldM ?f ?s1 sl] => destruct (IH s1) as (st' & Ef & Hc & Hm' & Hl)
    end.
    { cbn [mapping]. apply mapping_set_Forall; [exact Hm | reflexivity]. }
    exists st'. split; [exact Ef|]. split; [exact Hc|]. split; [exact Hm'|].
    rewrite Hl. cbn [warnings List.length]. rewrite length_app. cbn [List.length]. lia.
Qed.

(** A missing source without a placeholder is no failure: the atlas is
    built, its canvas untouched, every source null, one warning a slot. *)
Lemma build_atlas_all_missing (atlas_name : pystr) (folder : folder_state)
  (cfg : dict) :
  makedirs_ok folder = true -> save_ok folder = true ->
  load_config int_of_str (config folder) = Ok cfg ->
  (forall nm, file_at folder nm = Missing) ->
  exists a,
    build_atlas int_of_str atlas_name folder = Ok a /\
    pixels a = new_rgba (width a) (height a) /\
    Forall (fun e => source (snd e) = None) (slots a) /\
    List.length (warned a) = List.length (slot_list cfg).
Proof.
  intros Hmk Hsv Hcfg Hmiss. unfold build_atlas. rewrite Hmk, Hcfg. cbn [bind].
  pose proof (load_config_validated _ _ Hcfg) as Hv.
  apply validate_slots_ok in Hv.
  destruct Hv as (cw & ch & sl & Ecw & Ech & _ & _ & Esl & _ & Hall & _).
  rewrite (slot_list_get _ _ Esl).
  unfold compose.
  rewrite (dict_index_get cfg (py "canvas_width"))
    by (intros E; rewrite E in Ecw; discriminate).
  rewrite (dict_index_get cfg (py "canvas_height"))
    by (intros E; rewrite E in Ech; discriminate).
  rewrite (dict_index_get cfg (py "slots")) by (rewrite Esl; discriminate).
  cbn [bind]. rewrite Ecw, Ech, Esl, Hmiss. cbn [bind].
  assert (Hs : exists sorted, sort_slots int_of_str sl = Ok sorted).
  { unfold sort_slots.
    assert (Hk : exists keys, mapM (slot_key int_of_str) sl = Ok keys).
    { clear Esl. induction Hall as [|s sl0 Hwf Hall0 IH]; cbn [mapM].
      - eexists; reflexivity.
      - destruct IH as [keys Ek]. rewrite Ek.
        assert (Hd : exists sd, s = VDict sd).
        { destruct Hwf as (d & ? & ? & ? & ? & ? & E & _). exists d. exact E. }
        destruct Hd as [sd ->].
        destruct (slot_fields cw ch sd Hwf) as (idx & ? & ? & ? & ? & ? & Ei & _).
        cbn [slot_key]. rewrite Ei. cbn [bind]. eexists; reflexivity. }
    destruct Hk as [keys Ek]. rewrite Ek. cbn [bind]. eexists; reflexivity. }
  destruct Hs as [sorted Es]. rewrite Es. cbn [bind].
  pose proof (sort_slots_perm _ _ Es) as Hp.
  assert (Hall' : Forall (slot_well_formed cw ch) sorted).
  { rewrite Forall_forall in *. intros s Hin. apply Hall.
    apply (Permutation_in _ Hp). exact Hin. }
  destruct (foldM_all_missing cw ch atlas_name folder sorted
              {| canvas := new_rgba cw ch; mapping := []; warnings := [] |}
              Hmiss Hall' (Forall_nil _))
    as (st' & Ef & Hc & Hm & Hl).
  rewrite Ef. cbn [bind]. rewrite Hsv. eexists. split; [reflexivity|].
  cbn [pixels width height slots warned].
  split; [exact Hc|]. split; [exact Hm|].
  rewrite Hl. cbn [warnings List.length]. apply Permutation_length. exact Hp.
Qed.


(** C10.  On a configuration [validate_slots] accepted, the filename the
    compositor resolves for each slot ([slot.get("filename")] when it is
    true, which a safe name is, else ["<index>.png"]) passes
    [is_safe_filename], so the compositor does not abort with its
    unsafe-filename [ValueError]. *)
Theorem validated_filenames_safe (cfg : dict)
  (Hv : validate_slots cfg = Ok tt) :
  (forall s, In s (slot_list cfg) ->
     exists sd idx,
       s = VDict sd /\
       int_at int_of_str sd (py "index") = Ok idx /\
       is_safe_filename (resolve_filename sd idx) = true) /\
  (forall atlas_name folder f i,
     compose int_of_str atlas_name folder cfg
     <> Raise (ValueError (UnsafeFilename f i))).
Proof.
  split.
  - apply validate_slots_ok in Hv.
    destruct Hv as (cw & ch & sl & _ & _ & _ & _ & Esl & _ & Hall & _).
    rewrite (slot_list_get _ _ Esl). intros s Hin.
    rewrite Forall_forall in Hall. pose proof (Hall s Hin) as Hwf.
    assert (Hd : exists sd, s = VDict sd).
    { destruct Hwf as (d & ? & ? & ? & ? & ? & E & _). exists d. exact E. }
    destruct Hd as [sd ->].
    destruct (slot_fields cw ch sd Hwf)
      as (idx & x & y & w & h & fname & Ei & _ & _ & _ & _ & _ & _ & _ & Hn & Hs & _).
    exists sd, idx. split; [reflexivity|]. split; [exact Ei|]. rewrite Hn. exact Hs.
  - intros atlas_name folder. apply benign_compose. exact Hv.
Qed.

End BuildFacts.


Lemma validated_filenames_safe_witness :
  exists sd idx,
    default_slot 1 = VDict sd /\
    is_safe_filename (resolve_filename sd idx) = true.
Proof.
  destruct (proj1 (validated_filenames_safe (PIL := size_only) no_literal
                     default_cfg eq_refl) (default_slot 1))
    as (sd & idx & E & _ & Hs).
  - left. reflexivity.
  - exists sd, idx. split; assumption.
Defined.

(** ** The orchestrator *)

(** *** Folder order *)

Lemma bytes_leb_total (a b : list Z) : bytes_leb a b = false -> bytes_leb b a = true.
Proof.
  revert b. induction a as [|x a IH]; intros [|y b]; cbn [bytes_leb]; try congruence.
  destruct (Z.ltb_spec x y), (Z.eqb_spec x y), (Z.ltb_spec y x), (Z.eqb_spec y x);
    cbn [orb andb]; try lia; try congruence. apply IH.
Qed.

Lemma bytes_leb_trans (a b c : list Z) :
  bytes_leb a b = true -> bytes_leb b c = true -> bytes_leb a c = true.
Proof.
  revert b c. induction a as [|x a IH]; intros [|y b] [|z c]; cbn [bytes_leb];
    try congruence.
  destruct (Z.ltb_spec x y), (Z.eqb_spec x y), (Z.ltb_spec y z), (Z.eqb_spec y z),
    (Z.ltb_spec x z), (Z.eqb_spec x z); cbn [orb andb]; try lia; try congruence.
  apply IH.
Qed.

Section InsertionSort.

Context {K A : Type}.
Variable leb : K -> K -> bool.
Hypothesis leb_total : forall a b, leb a b = false -> leb b a = true.
Hypothesis leb_trans : forall a b c, leb a b = true -> leb b c = true -> leb a c = true.

Lemma insert_by_HdRel (x y : K * A) (l : list (K * A)) :
  keyed_le leb y x -> HdRel (keyed_le leb) y l -> HdRel (keyed_le leb) y (insert_by leb x l).
Proof.
  intros Hyx Hl. destruct l as [|z l]; cbn [insert_by].
  - constructor. exact Hyx.
  - destruct (leb (fst x) (fst z)); constructor; [exact Hyx|].
    inversion Hl; assumption.
Qed.

Lemma insert_by_sorted (x : K * A) (l : list (K * A)) :
  Sorted (keyed_le leb) l -> Sorted (keyed_le leb) (insert_by leb x l).
Proof.
  induction l as [|y l IH]; intros Hs; cbn [insert_by].
  - repeat constructor.
  - destruct (leb (fst x) (fst y)) eqn:E.
    + constructor; [exact Hs | constructor; exact E].
    + inversion Hs as [|? ? Hs' Hhd]; subst. constructor; [apply IH; exact Hs'|].
      apply insert_by_HdRel; [apply leb_total; exact E | exact Hhd].
Qed.

Lemma sorted_by_sorted (l : list (K * A)) :
  StronglySorted (keyed_le leb) (sorted_by leb l).
Proof.
  apply Sorted_StronglySorted.
  - intros a b c. apply leb_trans.
  - induction l as [|x l IH]; cbn [sorted_by fold_right]; [constructor|].
    apply insert_by_sorted. exact IH.
Qed.

End InsertionSort.

Lemma StronglySorted_map_snd {K A} (R : K * A -> K * A -> Prop)
  (R' : A -> A -> Prop) (Q : K * A -> Prop) (l : list (K * A)) :
  (forall x y, Q x -> Q y -> R x y -> R' (snd x) (snd y)) ->
  Forall Q l -> StronglySorted R l -> StronglySorted R' (map snd l).
Proof.
  intros HR HQ Hs. induction Hs as [|x l Hs IH Hx]; cbn [map]; [constructor|].
  inversion HQ as [|? ? Qx Ql]; subst. constructor; [apply IH; exact Ql|].
  rewrite Forall_forall in *. intros b Hb. apply in_map_iff in Hb.
  destruct Hb as [y [<- Hy]]. apply HR; [exact Qx | apply Ql; exact Hy | apply Hx; exact Hy].
Qed.


Section MainFacts.

Context {PIL : Pillow}.
Variable int_of_str : pystr -> option Z.


Lemma build_all_exit (w : world) (names : list pystr) :
  exit_code (build_all int_of_str w names) = 0 \/
  exit_code (build_all int_of_str w names) = 1.
Proof.
  induction names as [|n names IH]; cbn [build_all]; [left; reflexivity|].
  destruct (build_atlas int_of_str n (folder_of w n)); cbn [exit_code];
    [exact IH | right; reflexivity].
Qed.

Lemma build_all_ok_iff (w : world) (names : list pystr) :
  exit_code (build_all int_of_str w names) = 0 <->
  forall n, In n names -> exists a, build_atlas int_of_str n (folder_of w n) = Ok a.
Proof.
  induction names as [|n names IH]; cbn [build_all].
  - split; [intros _ n [] | reflexivity].
  - destruct (build_atlas int_of_str n (folder_of w n)) as [a|e] eqn:E;
      cbn [exit_code].
    + rewrite IH. split.
      * intros H m [<- | Hm]; [exists a; exact E | apply H; exact Hm].
      * intros H m Hm. apply H. right. exact Hm.
    + split; [discriminate|]. intros H.
      destruct (H n (or_introl eq_refl)) as [a Ha]. congruence.
Qed.

Lemma build_all_first_failure (w : world) (before after : list pystr)
  (n : pystr) (e : exn) :
  (forall m, In m before -> exists a, build_atlas int_of_str m (folder_of w m) = Ok a) ->
  build_atlas int_of_str n (folder_of w n) = Raise e ->
  let r := build_all int_of_str w (before ++ n :: after) in
  exit_code r = 1 /\ attempted r = before ++ [n] /\
  failure r = Some (n, report_of e, e) /\
  List.length (built r) = List.length before.
Proof.
  intros Hb Hn. induction before as [|m before IH]; cbn [build_all List.app].
  - rewrite Hn. cbn. repeat split.
  - destruct (Hb m (or_introl eq_refl)) as [a Ha]. rewrite Ha.
    cbn [exit_code attempted failure built List.length].
    destruct IH as (H1 & H2 & H3 & H4).
    { intros k Hk. apply Hb. right. exact Hk. }
    cbn zeta in *. rewrite H1, H2, H3, H4. repeat split.
Qed.


Lemma main_build_all (w : world) (names : list pystr) :
  src_is_dir w = true -> atlas_folders w = Ok names ->
  main int_of_str w = build_all int_of_str w names.
Proof.
  intros Hd Hl. unfold main. rewrite Hd, Hl. destruct names; reflexivity.
Qed.


(** C2.  [main] exits with 1 when the source root is no directory or cannot
    be listed.  Otherwise it exits with 0 exactly when [build_atlas] succeeds
    on every sub-directory (so also when there is none) and with 1 in every
    other case; the first folder whose build raises, whatever the exception,
    is the last one attempted. *)
Theorem main_exit_contract (w : world) :
  (src_is_dir w = false ->
     exit_code (main int_of_str w) = 1 /\ attempted (main int_of_str w) = []) /\
  (forall e, src_is_dir w = true -> atlas_folders w = Raise e ->
     exit_code (main int_of_str w) = 1 /\ attempted (main int_of_str w) = []) /\
  (forall names, src_is_dir w = true -> atlas_folders w = Ok names ->
     (exit_code (main int_of_str w) = 0 <->
      forall n, In n names ->
        exists a, build_atlas int_of_str n (folder_of w n) = Ok a) /\
     (exit_code (main int_of_str w) = 0 \/ exit_code (main int_of_str w) = 1) /\
     (names = [] -> exit_code (main int_of_str w) = 0) /\
     (forall before n after e,
        names = before ++ n :: after ->
        (forall m, In m before ->
           exists a, build_atlas int_of_str m (folder_of w m) = Ok a) ->
        build_atlas int_of_str n (folder_of w n) = Raise e ->
        exit_code (main int_of_str w) = 1 /\
        attempted (main int_of_str w) = before ++ [n] /\
        failure (main int_of_str w) = Some (n, report_of e, e) /\
        List.length (built (main int_of_str w)) = List.length before)).
Proof.
  split; [|split].
  - intros Hd. unfold main. rewrite Hd. split; reflexivity.
  - intros e Hd Hl. unfold main. rewrite Hd, Hl. split; reflexivity.
  - intros names Hd Hl. rewrite (main_build_all w names Hd Hl).
    split; [apply build_all_ok_iff|]. split; [apply build_all_exit|].
    split; [intros ->; reflexivity|].
    intros before n after e -> Hb Hn.
    apply (build_all_first_failure w before after n e Hb Hn).
Qed.

End MainFacts.


Lemma main_exit_contract_witness :
  exit_code (main no_literal (sample_world [py "ui"; py "fx"])) = 0.
Proof.
  apply (proj2 (proj1 (proj2 (proj2 (main_exit_contract (PIL := size_only)
                                        no_literal
                                        (sample_world [py "ui"; py "fx"])))
                          [py "fx"; py "ui"] eq_refl eq_refl))).
  intros n _.
  destruct (build_atlas_all_missing (PIL := size_only) no_literal n
              empty_folder default_cfg eq_refl eq_refl eq_refl
              (fun _ => eq_refl)) as [a [Ha _]].
  exists a. exact Ha.
Defined.

(** ** Explicit mode *)

(** C8 on the code.  In explicit mode a slot entry without ["x"] makes
    [load_config] raise [KeyError], and one whose ["x"] is [null] makes it
    raise [TypeError]; [main] reports both under "Unexpected error", not as
    a configuration error.  A missing ["index"] is reported as a
    configuration error (by [validate_slots]), and a missing ["filename"] is
    passed through as [None] without error. *)
Theorem load_config_explicit_errors {PIL : Pillow}
  (int_of_str : pystr -> option Z) (files : pystr -> file_state) :
  load_config int_of_str missing_x_config = Raise (KeyError (py "x")) /\
  failure (main int_of_str (one_folder_world missing_x_config files))
  = Some (py "ui", UnexpectedError, KeyError (py "x")) /\
  exit_code (main int_of_str (one_folder_world missing_x_config files)) = 1 /\
  load_config int_of_str null_x_config = Raise TypeError /\
  failure (main int_of_str (one_folder_world null_x_config files))
  = Some (py "ui", UnexpectedError, TypeError) /\
  load_config int_of_str missing_index_config = Raise (ValueError BadIndex) /\
  failure (main int_of_str (one_folder_world missing_index_config files))
  = Some (py "ui", ConfigValidationError, ValueError BadIndex) /\
  load_config int_of_str no_filename_config
  = Ok (make_cfg 2048 2048
          [VDict [ (py "index", VInt 1); (py "x", VInt 0); (py "y", VInt 0);
                   (py "w", VInt 1); (py "h", VInt 1);
                   (py "filename", VNone) ]]).
Proof. repeat split; reflexivity. Qed.

(** ** What [load_config] returns *)

Lemma mapM_Forall2 {A B} (f : A -> result B) (l : list A) (bs : list B) :
  mapM f l = Ok bs <-> Forall2 (fun a b => f a = Ok b) l bs.
Proof.
  revert bs. induction l as [|a l IH]; intros bs; cbn [mapM].
  - split.
    + intros H. injection H as <-. constructor.
    + intros H. inversion H. reflexivity.
  - split.
    + destruct (f a) as [b|e] eqn:E; [|discriminate]. cbn [bind].
      destruct (mapM f l) as [bs'|e]; [|discriminate]. cbn [bind].
      intros H. injection H as <-. constructor; [exact E | apply IH; reflexivity].
    + intros H. inversion H as [|? b ? bs' Hb Hbs]; subst.
      rewrite Hb. cbn [bind]. apply IH in Hbs. rewrite Hbs. reflexivity.
Qed.

Section LoadFacts.

Variable int_of_str : pystr -> option Z.

(** The entry [normalize_slot] writes has the six keys, with [index] an
    [int] or [None]. *)
Lemma normalize_slot_shape (s s' : value) :
  normalize_slot int_of_str s = Ok s' ->
  exists iv x y w h f,
    s' = VDict [ (py "index", iv); (py "x", VInt x); (py "y", VInt y);
                 (py "w", VInt w); (py "h", VInt h); (py "filename", f) ] /\
    (iv = VNone \/ exists i, iv = VInt i).
Proof.
  destruct s as [| b | z | fl | str | l | d]; try discriminate.
  cbn [normalize_slot].
  destruct (dict_has d (py "index")).
  - destruct (dict_index d (py "index")) as [v|]; [|discriminate]. cbn [bind].
    destruct (py_int int_of_str v) as [i|]; [|discriminate]. cbn [bind].
    repeat match goal with
           | |- bind (bind ?r _) _ = Ok _ -> _ =>
             destruct r; [cbn [bind] | discriminate]
           | |- bind ?r _ = Ok _ -> _ =>
             destruct r; [cbn [bind] | discriminate]
           end.
    intros H. injection H as <-. do 6 eexists. split; [reflexivity|].
    right. eexists. reflexivity.
  - cbn [bind].
    repeat match goal with
           | |- bind (bind ?r _) _ = Ok _ -> _ =>
             destruct r; [cbn [bind] | discriminate]
           | |- bind ?r _ = Ok _ -> _ =>
             destruct r; [cbn [bind] | discriminate]
           end.
    intros H. injection H as <-. do 6 eexists. split; [reflexivity|].
    left. reflexivity.
Qed.

Lemma grid_slot_canonical (cols sw sh i : Z) : canonical_slot (grid_slot cols sw sh i).
Proof. unfold grid_slot. do 6 eexists. reflexivity. Qed.

Lemma generate_grid_slots_canonical (cols rows sw sh : Z) :
  Forall canonical_slot (generate_grid_slots cols rows sw sh).
Proof.
  unfold generate_grid_slots. apply Forall_forall. intros s Hs.
  apply in_map_iff in Hs. destruct Hs as [i [<- _]]. apply grid_slot_canonical.
Qed.

(** An accepted slot whose index is not [None] in shape is canonical. *)
Lemma shaped_slot_canonical (cw ch : Z) (s : value) :
  (exists iv x y w h f,
     s = VDict [ (py "index", iv); (py "x", VInt x); (py "y", VInt y);
                 (py "w", VInt w); (py "h", VInt h); (py "filename", f) ] /\
     (iv = VNone \/ exists i, iv = VInt i)) ->
  slot_well_formed cw ch s -> canonical_slot s.
Proof.
  intros (iv & x & y & w & h & f & -> & Hiv) Hwf.
  destruct Hiv as [-> | [i ->]].
  - destruct Hwf as (d & idx & ? & ? & ? & ? & E & Ei & _).
    injection E as <-. discriminate Ei.
  - do 6 eexists. reflexivity.
Qed.

Lemma load_config_shape (c : config_file) (cfg : dict) :
  load_config int_of_str c = Ok cfg ->
  exists cw ch sl,
    cfg = make_cfg cw ch sl /\
    Forall (fun s => exists iv x y w h f,
                s = VDict [ (py "index", iv); (py "x", VInt x); (py "y", VInt y);
                            (py "w", VInt w); (py "h", VInt h); (py "filename", f) ] /\
                (iv = VNone \/ exists i, iv = VInt i)) sl.
Proof.
  assert (Hgridshape : forall cols rows sw sh,
             Forall (fun s => exists iv x y w h f,
                s = VDict [ (py "index", iv); (py "x", VInt x); (py "y", VInt y);
                            (py "w", VInt w); (py "h", VInt h); (py "filename", f) ] /\
                (iv = VNone \/ exists i, iv = VInt i))
               (generate_grid_slots cols rows sw sh)).
  { intros. apply Forall_forall. intros s Hs.
    unfold generate_grid_slots in Hs. apply in_map_iff in Hs.
    destruct Hs as [i [<- _]]. unfold grid_slot. do 6 eexists.
    split; [reflexivity|]. right. eexists. reflexivity. }
  assert (Hlast : forall cw ch sl,
             (validate_slots (make_cfg cw ch sl) ;;; Ok (make_cfg cw ch sl)) = Ok cfg ->
             cfg = make_cfg cw ch sl).
  { intros cw ch sl H. destruct (validate_slots _); [|discriminate].
    cbn [bind] in H. injection H as <-. reflexivity. }
  destruct c as [| | raw]; cbn [load_config].
  - intros H. injection H as <-. do 3 eexists. split; [reflexivity|]. apply Hgridshape.
  - discriminate.
  - destruct raw as [| b | z | f | str | l | d]; try discriminate.
    assert (Hgrid : load_grid int_of_str d = Ok cfg ->
                    exists cw ch sl, cfg = make_cfg cw ch sl /\
                      Forall (fun s => exists iv x y w h f,
                        s = VDict [ (py "index", iv); (py "x", VInt x); (py "y", VInt y);
                                    (py "w", VInt w); (py "h", VInt h); (py "filename", f) ] /\
                        (iv = VNone \/ exists i, iv = VInt i)) sl).
    { unfold load_grid.
      repeat match goal with
             | |- bind (validate_slots _) _ = Ok _ -> _ => fail 1
             | |- bind ?r _ = Ok _ -> _ =>
               destruct r; [cbn [bind] | discriminate]
             end.
      match goal with |- (if ?c then _ else _) = _ -> _ => destruct c end;
        [discriminate|].
      intros H. apply Hlast in H. do 3 eexists. split; [exact H|]. apply Hgridshape. }
    destruct (dict_find d (py "slots")) as [[| b | z | f | str | sl | d']|];
      try exact Hgrid.
    unfold load_explicit.
    destruct (mapM (normalize_slot int_of_str) sl) as [nsl|] eqn:En; [|discriminate].
    cbn [bind].
    repeat match goal with
           | |- bind (validate_slots _) _ = Ok _ -> _ => fail 1
           | |- bind ?r _ = Ok _ -> _ =>
             destruct r; [cbn [bind] | discriminate]
           end.
    intros H. apply Hlast in H. do 3 eexists. split; [exact H|].
    apply mapM_Forall2 in En. clear - En.
    induction En as [|s s' sl nsl Hs _ IH]; constructor; [|exact IH].
    apply (normalize_slot_shape _ _ Hs).
Qed.

Lemma load_config_canonical_wf (c : config_file) (cfg : dict) :
  load_config int_of_str c = Ok cfg -> well_formed cfg /\ canonical cfg.
Proof.
  intros H. pose proof (load_config_validated int_of_str c cfg H) as Hv.
  apply validate_slots_ok in Hv. split; [exact Hv|].
  destruct (load_config_shape c cfg H) as (cw & ch & sl & -> & Hsh).
  exists cw, ch, sl. split; [reflexivity|].
  destruct Hv as (cw' & ch' & sl' & _ & _ & _ & _ & Esl & _ & Hall & _).
  change (dict_get (make_cfg cw ch sl) (py "slots")) with (VList sl) in Esl.
  injection Esl as <-.
  rewrite Forall_forall in *. intros s Hs.
  apply (shaped_slot_canonical cw' ch'); [apply Hsh | apply Hall]; exact Hs.
Qed.

Lemma normalize_slot_canonical (s : value) :
  canonical_slot s -> normalize_slot int_of_str s = Ok s.
Proof. intros (i & x & y & w & h & f & ->). reflexivity. Qed.

Lemma load_config_fixpoint (cfg : dict) :
  canonical cfg -> validate_slots cfg = Ok tt ->
  load_config int_of_str (Parsed (VDict cfg)) = Ok cfg.
Proof.
  intros (cw & ch & sl & -> & Hsl) Hv. cbn [load_config].
  change (dict_find (make_cfg cw ch sl) (py "slots")) with (Some (VList sl)).
  unfold load_explicit.
  replace (mapM (normalize_slot int_of_str) sl) with (@Ok (list value) sl).
  2:{ symmetry. apply mapM_Forall2. clear Hv.
      induction Hsl as [|s sl Hs _ IH]; constructor; [|exact IH].
      apply normalize_slot_canonical. exact Hs. }
  cbn [bind].
  change (dict_get_or (make_cfg cw ch sl) (py "canvas_width") (VInt DEFAULT_CANVAS))
    with (VInt cw).
  change (dict_get_or (make_cfg cw ch sl) (py "canvas_height") (VInt DEFAULT_CANVAS))
    with (VInt ch).
  cbn [py_int bind]. rewrite Hv. reflexivity.
Qed.

(** X1.  Whatever [load_config] returns satisfies the data model: the
    canvas sides are integers in 1..2048, the slots are a non-empty list
    with distinct indices >= 1, positive sizes and rectangles inside the
    canvas, and every slot is a dict of exactly the six keys index, x, y, w,
    h, filename, the five numbers being [int]s. *)
Theorem load_config_returns_canonical (c : config_file) (cfg : dict)
  (H : load_config int_of_str c = Ok cfg) :
  well_formed cfg /\ canonical cfg.
Proof. exact (load_config_canonical_wf c cfg H). Qed.

(** X2.  Normalising is idempotent: a configuration [load_config] returned,
    read back as a document, is returned unchanged. *)
Theorem load_config_idempotent (c : config_file) (cfg : dict)
  (H : load_config int_of_str c = Ok cfg) :
  load_config int_of_str (Parsed (VDict cfg)) = Ok cfg.
Proof.
  apply load_config_fixpoint.
  - apply (load_config_canonical_wf c cfg H).
  - apply (load_config_validated int_of_str c cfg H).
Qed.

(** X3.  A document that is an object with none of the recognised keys
    (an empty object, or one with other fields only) gives the same
    configuration as no document at all. *)
Theorem load_config_unrecognized_fields (d : dict)
  (H : forall k, In k recognized_keys -> dict_find d k = None) :
  load_config int_of_str (Parsed (VDict d)) = load_config int_of_str NoConfig.
Proof.
  cbn [load_config]. unfold recognized_keys in H.
  rewrite (H (py "slots")) by (simpl; tauto).
  unfold load_grid, dict_get_or.
  rewrite (H (py "cols")), (H (py "rows")), (H (py "slot_width")),
    (H (py "slot_height")), (H (py "canvas_width")), (H (py "canvas_height"))
    by (simpl; tauto).
  reflexivity.
Qed.

(** X4.  Whether [validate_slots] accepts does not depend on the order of
    the slots: two configurations with the same canvas and the same slots in
    another order are both accepted or both rejected. *)
Theorem validate_slots_permutation (cfg cfg' : dict) (sl sl' : list value)
  (Hw : dict_get cfg (py "canvas_width") = dict_get cfg' (py "canvas_width"))
  (Hh : dict_get cfg (py "canvas_height") = dict_get cfg' (py "canvas_height"))
  (Hs : dict_get cfg (py "slots") = VList sl)
  (Hs' : dict_get cfg' (py "slots") = VList sl')
  (Hp : Permutation sl sl') :
  validate_slots cfg = Ok tt <-> validate_slots cfg' = Ok tt.
Proof.
  assert (Hdir : forall c1 c2 l1 l2,
             dict_get c1 (py "canvas_width") = dict_get c2 (py "canvas_width") ->
             dict_get c1 (py "canvas_height") = dict_get c2 (py "canvas_height") ->
             dict_get c1 (py "slots") = VList l1 ->
             dict_get c2 (py "slots") = VList l2 ->
             Permutation l1 l2 -> well_formed c1 -> well_formed c2).
  { intros c1 c2 l1 l2 E1 E2 E3 E4 P (cw & ch & l & Ecw & Ech & Hcw & Hch & El & Hne & Hall & Hnd).
    rewrite E3 in El. injection El as <-.
    exists cw, ch, l2. rewrite <- E1, <- E2.
    repeat split; try assumption; try lia.
    - intros ->. apply Permutation_sym, Permutation_nil in P. contradiction.
    - apply (Permutation_Forall P). exact Hall.
    - apply (Permutation_NoDup (l := int_indices l1)); [|exact Hnd].
      unfold int_indices. apply Permutation_flat_map. exact P. }
  rewrite !validate_slots_ok. split.
  - apply (Hdir cfg cfg' sl sl'); assumption.
  - apply (Hdir cfg' cfg sl' sl); try (symmetry; assumption); assumption.
Qed.

End LoadFacts.

Lemma load_config_returns_canonical_witness :
  well_formed default_cfg /\ canonical default_cfg.
Proof.
  exact (load_config_returns_canonical no_literal NoConfig default_cfg eq_refl).
Defined.

Lemma load_config_idempotent_witness :
  load_config no_literal (Parsed (VDict default_cfg)) = Ok default_cfg.
Proof.
  exact (load_config_idempotent no_literal NoConfig default_cfg eq_refl).
Defined.

Lemma load_config_unrecognized_fields_witness :
  load_config no_literal (Parsed (VDict [(py "comment", VStr (py "ui atlas"))]))
  = load_config no_literal NoConfig.
Proof.
  apply load_config_unrecognized_fields.
  intros k Hk. simpl in Hk.
  repeat (destruct Hk as [<- | Hk]; [reflexivity|]). destruct Hk.
Defined.

Lemma validate_slots_permutation_witness :
  validate_slots (make_cfg 64 64 [slot_entry 2 32 0 32 32 "b.png";
                                  slot_entry 1 0 0 32 32 "a.png"]) = Ok tt
  <-> validate_slots (make_cfg 64 64 [slot_entry 1 0 0 32 32 "a.png";
                                      slot_entry 2 32 0 32 32 "b.png"]) = Ok tt.
Proof.
  apply (validate_slots_permutation
           (make_cfg 64 64 [slot_entry 2 32 0 32 32 "b.png";
                            slot_entry 1 0 0 32 32 "a.png"])
           (make_cfg 64 64 [slot_entry 1 0 0 32 32 "a.png";
                            slot_entry 2 32 0 32 32 "b.png"])
           [slot_entry 2 32 0 32 32 "b.png"; slot_entry 1 0 0 32 32 "a.png"]
           [slot_entry 1 0 0 32 32 "a.png"; slot_entry 2 32 0 32 32 "b.png"]
           eq_refl eq_refl eq_refl eq_refl).
  apply perm_swap.
Defined.

(** ** Grids *)

Lemma in_range (n i : Z) : In i (range n) <-> 0 <= i < n.
Proof.
  unfold range. rewrite in_map_iff. split.
  - intros [k [<- Hk]]. apply in_seq in Hk. lia.
  - intros H. exists (Z.to_nat i). split; [lia|]. apply in_seq. lia.
Qed.

Lemma NoDup_map_inj {A B} (f : A -> B) (l : list A) :
  (forall a b, In a l -> In b l -> f a = f b -> a = b) ->
  NoDup l -> NoDup (map f l).
Proof.
  intros Hinj Hnd. induction Hnd as [|x l Hx Hnd IH]; cbn [map]; constructor.
  - intros Hin. apply in_map_iff in Hin. destruct Hin as [y [E Hy]].
    apply Hx. rewrite (Hinj x y); [exact Hy | left; reflexivity | right; exact Hy | congruence].
  - apply IH. intros a b Ha Hb. apply Hinj; right; assumption.
Qed.

Lemma range_NoDup (n : Z) : NoDup (range n).
Proof.
  unfold range. apply NoDup_map_inj; [|apply seq_NoDup].
  intros a b _ _ H. lia.
Qed.

Lemma grid_int_indices (cols sw sh : Z) (l : list Z) :
  int_indices (map (grid_slot cols sw sh) l) = map (fun i => i + 1) l.
Proof.
  induction l as [|i l IH]; [reflexivity|].
  cbn [map]. unfold int_indices in *. cbn [flat_map]. rewrite IH. reflexivity.
Qed.

Lemma grid_slot_well_formed (cols rows sw sh cw ch i : Z) :
  0 < cols -> 0 < sw -> 0 < sh -> 0 <= i < rows * cols ->
  cols * sw <= cw -> rows * sh <= ch ->
  slot_well_formed cw ch (grid_slot cols sw sh i).
Proof.
  intros Hc Hw Hh Hi Hcw Hch. unfold grid_slot.
  eexists _, (i + 1), (i mod cols * sw), (i / cols * sh), sw, sh.
  pose proof (Z.mod_pos_bound i cols Hc) as Hm.
  assert (Hq : 0 <= i / cols < rows).
  { split; [apply Z.div_pos; lia|]. apply Z.div_lt_upper_bound; lia. }
  repeat split; try reflexivity; try lia; try nia.
  right. apply default_name_safe. lia.
Qed.

Lemma grid_slots_well_formed (cols rows sw sh cw ch : Z) :
  0 < cols -> 0 < sw -> 0 < sh ->
  cols * sw <= cw -> rows * sh <= ch ->
  Forall (slot_well_formed cw ch) (generate_grid_slots cols rows sw sh).
Proof.
  intros Hc Hw Hh Hcw Hch. apply Forall_forall. intros s Hs.
  unfold generate_grid_slots in Hs. apply in_map_iff in Hs.
  destruct Hs as [i [<- Hi]]. apply in_range in Hi.
  apply (grid_slot_well_formed cols rows); assumption.
Qed.

Lemma grid_slots_disjoint (cols sw sh a b : Z) :
  0 < cols -> 0 < sw -> 0 < sh -> 0 <= a -> 0 <= b -> a <> b ->
  rects_disjoint (grid_slot cols sw sh a) (grid_slot cols sw sh b).
Proof.
  intros Hc Hw Hh Ha Hb Hab. unfold rects_disjoint.
  change (rect_of (grid_slot cols sw sh a))
    with (a mod cols * sw, a / cols * sh, sw, sh).
  change (rect_of (grid_slot cols sw sh b))
    with (b mod cols * sw, b / cols * sh, sw, sh).
  cbv beta iota.
  pose proof (Z.div_mod a cols ltac:(lia)) as Da.
  pose proof (Z.div_mod b cols ltac:(lia)) as Db.
  destruct (Z.lt_trichotomy (a / cols) (b / cols)) as [Hlt | [Heq | Hgt]].
  - right. right. left. nia.
  - destruct (Z.lt_trichotomy (a mod cols) (b mod cols)) as [Hlt | [Heq' | Hgt]].
    + left. nia.
    + exfalso. apply Hab. rewrite Da, Db, Heq, Heq'. reflexivity.
    + right. left. nia.
  - right. right. right. nia.
Qed.

(** X5.  A grid of [cols] x [rows] slots of [slot_w] x [slot_h] (all
    positive) has [rows * cols] slots with the indices 1, 2, ... in order;
    every slot lies inside the canvas of [cols * slot_w] by [rows * slot_h]
    with a safe filename, and no two slots overlap. *)
Theorem generate_grid_slots_layout (cols rows slot_w slot_h : Z)
  (Hc : 0 < cols) (Hr : 0 < rows) (Hw : 0 < slot_w) (Hh : 0 < slot_h) :
  let sl := generate_grid_slots cols rows slot_w slot_h in
  List.length sl = Z.to_nat (rows * cols) /\
  int_indices sl = map (fun i => i + 1) (range (rows * cols)) /\
  Forall (slot_well_formed (cols * slot_w) (rows * slot_h)) sl /\
  (forall i j si sj,
     nth_error sl i = Some si -> nth_error sl j = Some sj -> i <> j ->
     rects_disjoint si sj).
Proof.
  cbv zeta. split; [apply generate_grid_slots_length|].
  split; [apply grid_int_indices|].
  split; [apply grid_slots_well_formed; lia|].
  assert (Hnth : forall k s,
             nth_error (generate_grid_slots cols rows slot_w slot_h) k = Some s ->
             s = grid_slot cols slot_w slot_h (Z.of_nat k)).
  { intros k s Hk.
    assert (Hlt : (k < Z.to_nat (rows * cols))%nat).
    { rewrite <- (generate_grid_slots_length cols rows slot_w slot_h).
      apply nth_error_Some. congruence. }
    pose proof (generate_grid_slots_nth cols rows slot_w slot_h (Z.of_nat k)
                  ltac:(lia)) as H.
    rewrite Nat2Z.id in H. congruence. }
  intros i j si sj Hi Hj Hij.
  rewrite (Hnth i si Hi), (Hnth j sj Hj).
  apply grid_slots_disjoint; lia.
Qed.

Lemma generate_grid_slots_layout_witness :
  List.length (generate_grid_slots 3 2 100 50) = 6%nat.
Proof.
  exact (proj1 (generate_grid_slots_layout 3 2 100 50
                  ltac:(lia) ltac:(lia) ltac:(lia) ltac:(lia))).
Defined.

(** X6.  Grid mode accepts every grid that fits: for a document without a
    slot list whose cols, rows, slot_width and slot_height (given or
    defaulted) coerce to positive integers and whose canvas (given, or
    defaulted to cols * slot_width by rows * slot_height) holds the grid and
    is at most 2048 on each side, [load_config] returns that canvas with the
    generated grid. *)
Theorem load_config_grid_accepts (int_of_str : pystr -> option Z) (d : dict)
  (cols rows slot_w slot_h canvas_w canvas_h : Z)
  (Hs : forall sl, dict_find d (py "slots") <> Some (VList sl))
  (Ec : py_int int_of_str (dict_get_or d (py "cols") (VInt DEFAULT_COLS)) = Ok cols)
  (Er : py_int int_of_str (dict_get_or d (py "rows") (VInt DEFAULT_ROWS)) = Ok rows)
  (Ew : py_int int_of_str (dict_get_or d (py "slot_width") (VInt DEFAULT_SLOT)) = Ok slot_w)
  (Eh : py_int int_of_str (dict_get_or d (py "slot_height") (VInt DEFAULT_SLOT)) = Ok slot_h)
  (Ecw : py_int int_of_str
           (dict_get_or d (py "canvas_width") (VInt (cols * slot_w))) = Ok canvas_w)
  (Ech : py_int int_of_str
           (dict_get_or d (py "canvas_height") (VInt (rows * slot_h))) = Ok canvas_h)
  (Hc : 0 < cols) (Hr : 0 < rows) (Hw : 0 < slot_w) (Hh : 0 < slot_h)
  (Hcw : cols * slot_w <= canvas_w <= 2048)
  (Hch : rows * slot_h <= canvas_h <= 2048) :
  load_config int_of_str (Parsed (VDict d))
  = Ok (make_cfg canvas_w canvas_h (generate_grid_slots cols rows slot_w slot_h)).
Proof.
  cbn [load_config].
  assert (Hg : load_grid int_of_str d
               = Ok (make_cfg canvas_w canvas_h
                       (generate_grid_slots cols rows slot_w slot_h))).
  { unfold load_grid. rewrite Ec. cbn [bind]. rewrite Er. cbn [bind].
    rewrite Ew. cbn [bind]. rewrite Eh. cbn [bind]. rewrite Ecw. cbn [bind].
    rewrite Ech. cbn [bind]. rewrite !Z.gtb_ltb. unfold MAX_CANVAS.
    destruct (Z.ltb_spec 2048 canvas_w); [lia|].
    destruct (Z.ltb_spec 2048 canvas_h); [lia|]. cbn [orb].
    replace (validate_slots _) with (@Ok unit tt); [reflexivity|].
    symmetry. apply validate_slots_ok.
    exists canvas_w, canvas_h, (generate_grid_slots cols rows slot_w slot_h).
    assert (Hpos : 0 < cols * slot_w /\ 0 < rows * slot_h) by nia.
    repeat split; try reflexivity; try lia.
    - intros E. apply (f_equal (@List.length value)) in E.
      rewrite generate_grid_slots_length in E. cbn [List.length] in E. nia.
    - apply grid_slots_well_formed; lia.
    - unfold generate_grid_slots. rewrite grid_int_indices.
      apply NoDup_map_inj; [intros a b _ _ Eab; lia | apply range_NoDup]. }
  destruct (dict_find d (py "slots")) as [[| b | z | f | str | sl | d']|] eqn:E;
    try exact Hg.
  exfalso. apply (Hs sl). reflexivity.
Qed.

Lemma load_config_grid_accepts_witness :
  load_config no_literal grid_2x3_config
  = Ok (make_cfg 200 150 (generate_grid_slots 2 3 100 50)).
Proof.
  apply (load_config_grid_accepts no_literal _ 2 3 100 50 200 150);
    try reflexivity; try lia.
  intros sl H. discriminate H.
Defined.

(** ** The fit is tight and centred *)







(** ** Slot order and the manifest *)

Lemma uint_chars_inj (u v : Decimal.uint) : uint_chars u = uint_chars v -> u = v.
Proof.
  revert v. induction u as [|u IH|u IH|u IH|u IH|u IH|u IH|u IH|u IH|u IH|u IH];
    intros v H; destruct v; cbn [uint_chars] in H; try discriminate H;
    try reflexivity; injection H as H; f_equal; apply IH; exact H.
Qed.

Lemma uint_chars_no_minus (u : Decimal.uint) (l : pystr) : uint_chars u <> 45 :: l.
Proof. destruct u; cbn [uint_chars]; congruence. Qed.

Lemma str_of_int_inj (a b : Z) : str_of_int a = str_of_int b -> a = b.
Proof.
  unfold str_of_int. intros H. apply DecimalZ.to_int_inj.
  destruct (Z.to_int a) as [u|u], (Z.to_int b) as [v|v].
  - f_equal. apply uint_chars_inj. exact H.
  - exfalso. apply (uint_chars_no_minus _ _ H).
  - exfalso. symmetry in H. apply (uint_chars_no_minus _ _ H).
  - f_equal. apply uint_chars_inj. injection H as H. exact H.
Qed.

(** Two sorted lists with the same elements are the same list, when no two
    different elements are each before the other. *)
Lemma sorted_perm_eq {X} (R : X -> X -> Prop) (l1 l2 : list X) :
  StronglySorted R l1 -> StronglySorted R l2 -> Permutation l1 l2 ->
  (forall x y, In x l1 -> In y l1 -> R x y -> R y x -> x = y) ->
  l1 = l2.
Proof.
  intros H1. revert l2. induction H1 as [|x l1 H1 IH Hx]; intros l2 H2 Hp Hanti.
  - apply Permutation_nil in Hp. congruence.
  - destruct l2 as [|y l2].
    { apply Permutation_sym, Permutation_nil in Hp. discriminate. }
    inversion H2 as [|? ? H2' Hy]; subst.
    rewrite Forall_forall in Hx, Hy.
    assert (Exy : x = y).
    { assert (Hxin : In x (y :: l2)) by (apply (Permutation_in _ Hp); left; reflexivity).
      assert (Hyin : In y (x :: l1))
        by (apply (Permutation_in _ (Permutation_sym Hp)); left; reflexivity).
      destruct Hxin as [E | Hxin]; [congruence|].
      destruct Hyin as [E | Hyin]; [congruence|].
      apply Hanti; [left; reflexivity | right; exact Hyin | apply Hx; exact Hyin
                   | apply Hy; exact Hxin]. }
    subst y. f_equal. apply IH; [exact H2' | apply (Permutation_cons_inv Hp) |].
    intros a b Ha Hb. apply Hanti; right; assumption.
Qed.

Lemma NoDup_map_eq {A B} (f : A -> B) (l : list A) (a b : A) :
  NoDup (map f l) -> In a l -> In b l -> f a = f b -> a = b.
Proof.
  induction l as [|x l IH]; intros Hnd Ha Hb E; [destruct Ha|].
  cbn [map] in Hnd. inversion Hnd as [|? ? Hx Hnd']; subst.
  destruct Ha as [<- | Ha], Hb as [<- | Hb].
  - reflexivity.
  - exfalso. apply Hx. rewrite E. apply in_map. exact Hb.
  - exfalso. apply Hx. rewrite <- E. apply in_map. exact Ha.
  - apply IH; assumption.
Qed.

Lemma combine_map_self {A B} (f : A -> B) (l : list A) :
  combine (map f l) l = map (fun a => (f a, a)) l.
Proof. induction l as [|a l IH]; [reflexivity|]. cbn [map combine]. f_equal. exact IH. Qed.

Lemma map_snd_keyed {A B} (f : A -> B) (l : list A) :
  map snd (map (fun a => (f a, a)) l) = l.
Proof. rewrite map_map. cbn [snd]. apply map_id. Qed.

Section OrderFacts.

Context {PIL : Pillow}.
Variable int_of_str : pystr -> option Z.

(** What the compositor reads from an accepted slot, by name. *)
Lemma slot_reads (cw ch : Z) (sd : dict) :
  slot_well_formed cw ch (VDict sd) ->
  int_at int_of_str sd (py "index") = Ok (index_of (VDict sd)) /\
  int_at int_of_str sd (py "x") = Ok (int_of (field (VDict sd) "x")) /\
  int_at int_of_str sd (py "y") = Ok (int_of (field (VDict sd) "y")) /\
  int_at int_of_str sd (py "w") = Ok (int_of (field (VDict sd) "w")) /\
  int_at int_of_str sd (py "h") = Ok (int_of (field (VDict sd) "h")) /\
  resolve_filename sd (index_of (VDict sd)) = VStr (resolved_name (VDict sd)) /\
  is_safe_filename (VStr (resolved_name (VDict sd))) = true /\
  slot_index (VDict sd) = Some (index_of (VDict sd)).
Proof.
  intros Hwf.
  destruct (slot_fields int_of_str cw ch sd Hwf)
    as (idx & x & y & w & h & fname & Ei & Ex & Ey & Ew & Eh & _ & _ & _ & Hn & Hs & _).
  destruct Hwf as (d & idx' & x' & y' & w' & h' & E & Ai & Ax & Ay & Aw & Ah & _).
  injection E as <-.
  rewrite (int_at_as_int int_of_str _ _ _ Ai) in Ei. injection Ei as <-.
  rewrite (int_at_as_int int_of_str _ _ _ Ax) in Ex. injection Ex as <-.
  rewrite (int_at_as_int int_of_str _ _ _ Ay) in Ey. injection Ey as <-.
  rewrite (int_at_as_int int_of_str _ _ _ Aw) in Ew. injection Ew as <-.
  rewrite (int_at_as_int int_of_str _ _ _ Ah) in Eh. injection Eh as <-.
  unfold index_of, resolved_name, slot_index, field, int_of.
  rewrite Ai, Ax, Ay, Aw, Ah.
  unfold index_of, field, int_of. rewrite Ai, Hn.
  repeat split; try (apply int_at_as_int; assumption). exact Hs.
Qed.

Lemma well_formed_is_dict (cw ch : Z) (s : value) :
  slot_well_formed cw ch s -> exists sd, s = VDict sd.
Proof. intros (d & ? & ? & ? & ? & ? & E & _). exists d. exact E. Qed.

Lemma int_indices_map (cw ch : Z) (sl : list value) :
  Forall (slot_well_formed cw ch) sl -> int_indices sl = map index_of sl.
Proof.
  intros H. induction H as [|s sl Hs _ IH]; [reflexivity|].
  unfold int_indices in *. cbn [flat_map map]. rewrite IH.
  destruct (well_formed_is_dict _ _ _ Hs) as [sd ->].
  destruct (slot_reads cw ch sd Hs) as (_ & _ & _ & _ & _ & _ & _ & Ei).
  rewrite Ei. reflexivity.
Qed.

Lemma slot_keys (cw ch : Z) (sl : list value) :
  Forall (slot_well_formed cw ch) sl ->
  mapM (slot_key int_of_str) sl = Ok (map index_of sl).
Proof.
  intros H. induction H as [|s sl Hs _ IH]; [reflexivity|].
  cbn [mapM map]. rewrite IH.
  destruct (well_formed_is_dict _ _ _ Hs) as [sd ->].
  destruct (slot_reads cw ch sd Hs) as (Ei & _).
  cbn [slot_key]. rewrite Ei. reflexivity.
Qed.

Lemma sort_slots_accepted (cw ch : Z) (sl : list value) :
  Forall (slot_well_formed cw ch) sl ->
  sort_slots int_of_str sl
  = Ok (map snd (sorted_by Z.leb (map (fun s => (index_of s, s)) sl))).
Proof.
  intros H. unfold sort_slots. rewrite (slot_keys cw ch sl H). cbn [bind].
  rewrite combine_map_self. reflexivity.
Qed.

Lemma Zleb_total (a b : Z) : (a <=? b) = false -> (b <=? a) = true.
Proof. intros H. apply Z.leb_le. apply Z.leb_gt in H. lia. Qed.

Lemma Zleb_trans (a b c : Z) : (a <=? b) = true -> (b <=? c) = true -> (a <=? c) = true.
Proof. rewrite !Z.leb_le. lia. Qed.

(** The sorted slots do not depend on the order the slots are listed in. *)
Lemma sort_slots_permutation (cw ch : Z) (sl sl' : list value) :
  Forall (slot_well_formed cw ch) sl -> NoDup (int_indices sl) ->
  Permutation sl sl' ->
  sort_slots int_of_str sl = sort_slots int_of_str sl'.
Proof.
  intros Hall Hnd Hp.
  assert (Hall' : Forall (slot_well_formed cw ch) sl')
    by (apply (Permutation_Forall Hp); exact Hall).
  rewrite (sort_slots_accepted cw ch sl Hall), (sort_slots_accepted cw ch sl' Hall').
  f_equal. f_equal.
  rewrite (int_indices_map cw ch sl Hall) in Hnd.
  apply (sorted_perm_eq (keyed_le Z.leb)).
  - apply sorted_by_sorted; [apply Zleb_total | apply Zleb_trans].
  - apply sorted_by_sorted; [apply Zleb_total | apply Zleb_trans].
  - rewrite !sorted_by_perm. apply Permutation_map. exact Hp.
  - intros [k s] [k' s'] Hin Hin' Hle Hle'.
    apply (Permutation_in _ (sorted_by_perm Z.leb _)) in Hin, Hin'.
    apply in_map_iff in Hin, Hin'.
    destruct Hin as [a [Ea Ha]], Hin' as [b [Eb Hb]].
    injection Ea as <- <-. injection Eb as <- <-.
    unfold keyed_le in Hle, Hle'. cbn [fst] in Hle, Hle'.
    apply Z.leb_le in Hle, Hle'.
    assert (E : a = b) by (apply (NoDup_map_eq index_of sl); [assumption.. | lia]).
    subst b. reflexivity.
Qed.

(** The sorted slots of an accepted list: the same slots, the indices
    strictly ascending. *)
Lemma sort_slots_ascending (cw ch : Z) (sl : list value) :
  Forall (slot_well_formed cw ch) sl -> NoDup (int_indices sl) ->
  exists sorted,
    sort_slots int_of_str sl = Ok sorted /\
    Permutation sorted sl /\
    StronglySorted (fun s t => index_of s < index_of t) sorted.
Proof.
  intros Hall Hnd. eexists. split; [apply (sort_slots_accepted cw ch sl Hall)|].
  assert (Hp : Permutation
                 (map snd (sorted_by Z.leb (map (fun s => (index_of s, s)) sl))) sl).
  { rewrite sorted_by_perm. rewrite map_snd_keyed. reflexivity. }
  split; [exact Hp|].
  rewrite (int_indices_map cw ch sl Hall) in Hnd.
  assert (Hnd' : NoDup (map index_of
                   (map snd (sorted_by Z.leb (map (fun s => (index_of s, s)) sl))))).
  { apply (Permutation_NoDup (l := map index_of sl)); [|exact Hnd].
    apply Permutation_map. apply Permutation_sym. exact Hp. }
  assert (Hs : StronglySorted (fun s t => index_of s <= index_of t)
                 (map snd (sorted_by Z.leb (map (fun s => (index_of s, s)) sl)))).
  { apply (StronglySorted_map_snd (keyed_le Z.leb) _ (fun p => fst p = index_of (snd p))).
    - intros x y Hx Hy Hle. unfold keyed_le in Hle. apply Z.leb_le in Hle.
      rewrite <- Hx, <- Hy. exact Hle.
    - apply Forall_forall. intros p Hin.
      apply (Permutation_in _ (sorted_by_perm Z.leb _)) in Hin.
      apply in_map_iff in Hin. destruct Hin as [a [<- _]]. reflexivity.
    - apply sorted_by_sorted; [apply Zleb_total | apply Zleb_trans]. }
  revert Hs Hnd'. generalize (map snd (sorted_by Z.leb (map (fun s => (index_of s, s)) sl))).
  intros l Hs. induction Hs as [|x l Hs IH Hx]; intros Hnd'; constructor.
  - apply IH. cbn [map] in Hnd'. inversion Hnd'; assumption.
  - cbn [map] in Hnd'. inversion Hnd' as [|? ? Hni _]; subst.
    rewrite Forall_forall in *. intros t Ht.
    assert (index_of x <> index_of t).
    { intros E. apply Hni. rewrite E. apply in_map. exact Ht. }
    specialize (Hx t Ht). lia.
Qed.

Lemma cover_geometry_ok_iff (w_slot h_slot w_img h_img : Z) :
  (exists g, cover_geometry w_slot h_slot w_img h_img = Ok g) <->
  w_img <> 0 /\ h_img <> 0.
Proof.
  unfold cover_geometry.
  destruct (Z.eqb_spec w_img 0), (Z.eqb_spec h_img 0); cbn [orb]; split;
    try (intros [g Hg]; discriminate Hg); try (intros [? ?]; contradiction);
    try (intros _; split; assumption); intros _; eexists; reflexivity.
Qed.

Lemma fit_and_paste_ok_iff (cw ch : Z) (cv img : image) (sd : dict) :
  slot_well_formed cw ch (VDict sd) ->
  (exists cv', fit_and_paste int_of_str cv sd img = Ok cv') <-> image_usable img.
Proof.
  intros Hwf. destruct (slot_reads cw ch sd Hwf) as (_ & Ex & Ey & Ew & Eh & _).
  unfold fit_and_paste, image_usable. rewrite Ew, Eh. cbn [bind].
  destruct (size img) as [w_img h_img]. cbn [fst snd].
  rewrite <- (cover_geometry_ok_iff (int_of (field (VDict sd) "w"))
                (int_of (field (VDict sd) "h")) w_img h_img).
  destruct (cover_geometry _ _ w_img h_img) as [[[[nw nh] l] t]|e]; cbn [bind].
  - rewrite Ex, Ey. cbn [bind]. split; intros _; eexists; reflexivity.
  - split; intros [? H]; discriminate H.
Qed.

(** The turn of an accepted slot, in full: it succeeds exactly when the slot
    builds, and then records the slot's manifest entry. *)
Lemma build_slot_result (cw ch : Z) (atlas_name : pystr) (folder : folder_state)
  (ph : option image) (st : build_state) (s : value) :
  slot_well_formed cw ch s -> loaded_placeholder folder ph ->
  ((exists st', build_slot int_of_str atlas_name folder ph st s = Ok st')
   <-> slot_builds folder s) /\
  (forall st', build_slot int_of_str atlas_name folder ph st s = Ok st' ->
     mapping st' = mapping_set (mapping st) (fst (manifest_entry folder s))
                     (snd (manifest_entry folder s))).
Proof.
  intros Hwf Hph. destruct (well_formed_is_dict _ _ _ Hwf) as [sd ->].
  destruct (slot_reads cw ch sd Hwf) as (Ei & Ex & Ey & Ew & Eh & Hn & Hs & _).
  rewrite (build_slot_turn int_of_str atlas_name folder ph st sd _ _ _ _ _ _
             Ei Ex Ey Ew Eh Hn Hs).
  unfold resolve_source, slot_builds, manifest_entry, expected_source,
    loaded_placeholder in *.
  cbn [fst snd].
  destruct (file_at folder (resolved_name (VDict sd))) as [| img |]; cbn [bind].
  - destruct (file_at folder (py "placeholder.png")) as [| p |];
      [subst ph | subst ph | contradiction]; cbn [bind].
    + split; [split; [tauto | intros _; eexists; reflexivity]|].
      intros st' H. injection H as <-. reflexivity.
    + pose proof (fit_and_paste_ok_iff cw ch (canvas st) p sd Hwf) as Hfit.
      destruct (fit_and_paste int_of_str (canvas st) sd p) as [cv|e]; cbn [bind].
      * split; [split; [intros _; apply Hfit; eexists; reflexivity
                       | intros _; eexists; reflexivity]|].
        intros st' H. injection H as <-. reflexivity.
      * split; [split; [intros [? H]; discriminate H
                       | intros H; apply Hfit in H; destruct H as [? H]; discriminate H]|].
        intros st' H. discriminate H.
  - pose proof (fit_and_paste_ok_iff cw ch (canvas st) img sd Hwf) as Hfit.
    destruct (fit_and_paste int_of_str (canvas st) sd img) as [cv|e]; cbn [bind].
    + split; [split; [intros _; apply Hfit; eexists; reflexivity
                     | intros _; eexists; reflexivity]|].
      intros st' H. injection H as <-. reflexivity.
    + split; [split; [intros [? H]; discriminate H
                     | intros H; apply Hfit in H; destruct H as [? H]; discriminate H]|].
      intros st' H. discriminate H.
  - split; [split; [intros [? H]; discriminate H | contradiction]|].
    intros st' H. discriminate H.
Qed.

Lemma mapping_set_fresh (m : list (pystr * resolved_slot)) (k : pystr)
  (v : resolved_slot) :
  ~ In k (map fst m) -> mapping_set m k v = m ++ [(k, v)].
Proof.
  induction m as [|[k' v'] m IH]; intros H; cbn [mapping_set]; [reflexivity|].
  cbn [map fst In] in H.
  destruct (str_eqb k' k) eqn:E.
  - apply str_eqb_eq in E. exfalso. apply H. left. exact E.
  - rewrite IH by tauto. reflexivity.
Qed.

(** The loop over slots of distinct indices appends their manifest entries
    in order. *)
Lemma foldM_manifest (cw ch : Z) (atlas_name : pystr) (folder : folder_state)
  (ph : option image) (l : list value) (st st' : build_state) :
  loaded_placeholder folder ph ->
  Forall (slot_well_formed cw ch) l ->
  NoDup (map index_of l) ->
  (forall s, In s l -> ~ In (str_of_int (index_of s)) (map fst (mapping st))) ->
  foldM (build_slot int_of_str atlas_name folder ph) st l = Ok st' ->
  mapping st' = mapping st ++ map (manifest_entry folder) l.
Proof.
  intros Hph Hall. revert st. induction Hall as [|s l Hs Hall IH];
    intros st Hnd Hfresh Hf; cbn [foldM] in Hf.
  - injection Hf as <-. cbn [map]. rewrite app_nil_r. reflexivity.
  - destruct (build_slot int_of_str atlas_name folder ph st s) as [st1|e] eqn:E;
      [|discriminate]. cbn [bind] in Hf.
    destruct (build_slot_result cw ch atlas_name folder ph st s Hs Hph) as [_ Hm].
    specialize (Hm st1 E). rewrite mapping_set_fresh in Hm
      by (apply Hfresh; left; reflexivity).
    cbn [map] in Hnd. inversion Hnd as [|? ? Hni Hnd']; subst.
    rewrite (IH st1 Hnd'); [| |exact Hf].
    + rewrite Hm, <- app_assoc. cbn [map]. destruct (manifest_entry folder s).
      reflexivity.
    + intros t Ht. rewrite Hm, map_app, in_app_iff. cbn [map fst In manifest_entry].
      intros [Hin | [E' | []]].
      * apply (Hfresh t); [right; exact Ht | exact Hin].
      * apply str_of_int_inj in E'. apply Hni. rewrite E'. apply in_map. exact Ht.
Qed.


(** [compose] on an accepted configuration, step by step. *)
Lemma compose_accepted (atlas_name : pystr) (folder : folder_state) (cfg : dict)
  (cw ch : Z) (sl : list value) :
  as_int (dict_get cfg (py "canvas_width")) = Some cw ->
  as_int (dict_get cfg (py "canvas_height")) = Some ch ->
  dict_get cfg (py "slots") = VList sl ->
  compose int_of_str atlas_name folder cfg =
  (placeholder_img <-
     match file_at folder (py "placeholder.png") with
     | Missing => Ok None
     | Readable p => Ok (Some p)
     | Unreadable => Raise (RuntimeError PlaceholderUnreadable)
     end ;;
   sorted_slots <- sort_slots int_of_str sl ;;
   st <- foldM (build_slot int_of_str atlas_name folder placeholder_img)
           {| canvas := new_rgba cw ch; mapping := []; warnings := [] |}
           sorted_slots ;;
   if save_ok folder
   then Ok {| name := atlas_name; width := cw; height := ch;
              pixels := canvas st; slots := mapping st; warned := warnings st |}
   else Raise OSError).
Proof.
  intros Ecw Ech Esl. unfold compose.
  rewrite (dict_index_get cfg (py "canvas_width"))
    by (intros E; rewrite E in Ecw; discriminate).
  rewrite (dict_index_get cfg (py "canvas_height"))
    by (intros E; rewrite E in Ech; discriminate).
  rewrite (dict_index_get cfg (py "slots")) by (rewrite Esl; discriminate).
  cbn [bind]. rewrite Ecw, Ech, Esl.
  destruct (file_at folder (py "placeholder.png")); reflexivity.
Qed.

Lemma loaded_placeholder_of (folder : folder_state) (ph : option image) :
  match file_at folder (py "placeholder.png") with
  | Missing => Ok None
  | Readable p => Ok (Some p)
  | Unreadable => Raise (RuntimeError PlaceholderUnreadable)
  end = Ok ph -> loaded_placeholder folder ph.
Proof.
  unfold loaded_placeholder.
  destruct (file_at folder (py "placeholder.png")); intros H;
    [injection H as <-; reflexivity | injection H as <-; reflexivity | discriminate H].
Qed.

(** X8.  The composed atlas does not depend on the order in which an
    accepted configuration lists its slots: the slots are painted, and the
    manifest written, in ascending index order whatever the listing. *)
Theorem compose_slot_order_irrelevant (atlas_name : pystr) (folder : folder_state)
  (cw ch : Z) (sl sl' : list value)
  (Hv : validate_slots (make_cfg cw ch sl) = Ok tt)
  (Hp : Permutation sl sl') :
  compose int_of_str atlas_name folder (make_cfg cw ch sl)
  = compose int_of_str atlas_name folder (make_cfg cw ch sl').
Proof.
  apply validate_slots_ok in Hv.
  destruct Hv as (cw' & ch' & sl0 & Ecw & Ech & _ & _ & Esl & _ & Hall & Hnd).
  change (dict_get (make_cfg cw ch sl) (py "slots")) with (VList sl) in Esl.
  injection Esl as <-.
  change (as_int (dict_get (make_cfg cw ch sl) (py "canvas_width")))
    with (Some cw) in Ecw.
  change (as_int (dict_get (make_cfg cw ch sl) (py "canvas_height")))
    with (Some ch) in Ech.
  injection Ecw as <-. injection Ech as <-.
  rewrite (compose_accepted atlas_name folder (make_cfg cw ch sl) cw ch sl)
    by reflexivity.
  rewrite (compose_accepted atlas_name folder (make_cfg cw ch sl') cw ch sl')
    by reflexivity.
  rewrite (sort_slots_permutation cw ch sl sl' Hall Hnd Hp). reflexivity.
Qed.

(** X9.  The manifest of a built atlas is the configuration's: its name is
    the folder's, its width and height are the canvas's, and its slots are
    the entries of the configuration's slots taken in strictly ascending
    index order, each under the key [str(index)] with the slot's x, y, w, h
    and the source that was used (the slot's file, the placeholder, or
    none). *)
Theorem build_atlas_manifest (atlas_name : pystr) (folder : folder_state)
  (a : atlas) (H : build_atlas int_of_str atlas_name folder = Ok a) :
  exists cfg cw ch sorted,
    load_config int_of_str (config folder) = Ok cfg /\
    canvas_dims cfg = Some (cw, ch) /\
    name a = atlas_name /\ width a = cw /\ height a = ch /\
    Permutation sorted (slot_list cfg) /\
    StronglySorted (fun s t => index_of s < index_of t) sorted /\
    slots a = map (manifest_entry folder) sorted.
Proof.
  unfold build_atlas in H. destruct (makedirs_ok folder); [|discriminate].
  destruct (load_config int_of_str (config folder)) as [cfg|e] eqn:Hcfg;
    [|discriminate]. cbn [bind] in H.
  pose proof (load_config_validated _ _ _ Hcfg) as Hv.
  apply validate_slots_ok in Hv.
  destruct Hv as (cw & ch & sl & Ecw & Ech & _ & _ & Esl & _ & Hall & Hnd).
  rewrite (compose_accepted atlas_name folder cfg cw ch sl Ecw Ech Esl) in H.
  destruct (match file_at folder (py "placeholder.png") with
            | Missing => Ok None
            | Readable p => Ok (Some p)
            | Unreadable => Raise (RuntimeError PlaceholderUnreadable)
            end) as [ph|e] eqn:Hph; [|discriminate]. cbn [bind] in H.
  apply loaded_placeholder_of in Hph.
  destruct (sort_slots_ascending cw ch sl Hall Hnd) as (sorted & Es & Hp & Hs).
  rewrite Es in H. cbn [bind] in H.
  destruct (foldM _ _ sorted) as [st|e] eqn:Hf; [|discriminate]. cbn [bind] in H.
  destruct (save_ok folder); [|discriminate]. injection H as <-.
  exists cfg, cw, ch, sorted. cbn [name width height slots].
  split; [reflexivity|]. split; [unfold canvas_dims; rewrite Ecw, Ech; reflexivity|].
  split; [reflexivity|]. split; [reflexivity|]. split; [reflexivity|].
  split; [rewrite (slot_list_get _ _ Esl); exact Hp|]. split; [exact Hs|].
  assert (Hall' : Forall (slot_well_formed cw ch) sorted)
    by (apply (Permutation_Forall (Permutation_sym Hp)); exact Hall).
  rewrite (foldM_manifest cw ch atlas_name folder ph sorted
             {| canvas := new_rgba cw ch; mapping := []; warnings := [] |} st
             Hph Hall'); try exact Hf.
  - reflexivity.
  - apply (Permutation_NoDup (l := map index_of sl)).
    + apply Permutation_map. apply Permutation_sym. exact Hp.
    + rewrite <- (int_indices_map cw ch sl Hall). exact Hnd.
  - intros s _ [].
Qed.


End OrderFacts.

Lemma compose_slot_order_irrelevant_witness :
  compose (PIL := size_only) no_literal (py "ui") empty_folder
    (make_cfg 64 64 [slot_entry 2 32 0 32 32 "b.png"; slot_entry 1 0 0 32 32 "a.png"])
  = compose no_literal (py "ui") empty_folder
      (make_cfg 64 64 [slot_entry 1 0 0 32 32 "a.png"; slot_entry 2 32 0 32 32 "b.png"]).
Proof.
  apply (compose_slot_order_irrelevant (PIL := size_only) no_literal
           (py "ui") empty_folder 64 64
           [slot_entry 2 32 0 32 32 "b.png"; slot_entry 1 0 0 32 32 "a.png"]
           [slot_entry 1 0 0 32 32 "a.png"; slot_entry 2 32 0 32 32 "b.png"]
           eq_refl).
  apply perm_swap.
Defined.

Lemma build_atlas_manifest_witness :
  exists a, build_atlas no_literal (py "ui") empty_folder = Ok a /\
            name a = py "ui".
Proof.
  destruct (build_atlas_all_missing (PIL := size_only) no_literal (py "ui")
              empty_folder default_cfg eq_refl eq_refl eq_refl
              (fun _ => eq_refl)) as [a [Ha _]].
  exists a. split; [exact Ha|].
  destruct (build_atlas_manifest (PIL := size_only) no_literal (py "ui")
              empty_folder a Ha) as (cfg & cw & ch & sorted & _ & _ & Hn & _).
  exact Hn.
Defined.


(** ** UTF-8 keys *)

Lemma lor_small (a n b : Z) :
  forallb (fun b => Z.lor a b =? b + a) (range n) = true ->
  0 <= b < n -> Z.lor a b = b + a.
Proof.
  intros H Hb. rewrite forallb_forall in H. apply Z.eqb_eq. apply H.
  apply in_range. exact Hb.
Qed.

Lemma shiftr_div (c n : Z) : 0 <= n -> Z.shiftr c n = c / 2 ^ n.
Proof. intros H. apply Z.shiftr_div_pow2. exact H. Qed.

Lemma land_63 (c : Z) : Z.land c 63 = c mod 64.
Proof. change 63 with (Z.ones 6). rewrite Z.land_ones by lia. reflexivity. Qed.

Lemma Some_inj {A} (a b : A) : Some a = Some b -> a = b.
Proof. congruence. Qed.

(** The bytes of one code point, in arithmetic. *)
Lemma encode_char_bytes (c : Z) (bs : list Z) :
  encode_char c = Some bs ->
  (0 <= c < 128 /\ bs = [c]) \/
  (128 <= c < 2048 /\ bs = [c / 64 + 192; c mod 64 + 128]) \/
  (2048 <= c < 65536 /\ ~ 55296 <= c <= 57343 /\
   bs = [c / 4096 + 224; (c / 64) mod 64 + 128; c mod 64 + 128]) \/
  (65536 <= c < 1114112 /\
   bs = [c / 262144 + 240; (c / 4096) mod 64 + 128; (c / 64) mod 64 + 128;
         c mod 64 + 128]).
Proof.
  unfold encode_char.
  destruct (Z.ltb_spec c 0); [discriminate|].
  destruct (Z.ltb_spec c 128).
  { intros E. apply Some_inj in E. subst bs. left. split; [lia | reflexivity]. }
  rewrite !land_63, !shiftr_div by lia.
  change (2 ^ 6) with 64. change (2 ^ 12) with 4096. change (2 ^ 18) with 262144.
  assert (Hm : forall x, Z.lor 128 (x mod 64) = x mod 64 + 128).
  { intros x. apply (lor_small 128 64); [reflexivity|]. apply Z.mod_pos_bound. lia. }
  rewrite !Hm.
  destruct (Z.ltb_spec c 2048).
  { intros E. apply Some_inj in E. subst bs. right. left. split; [lia|].
    rewrite (lor_small 192 32) by
      (first [reflexivity | split; [apply Z.div_pos; lia | apply Z.div_lt_upper_bound; lia]]).
    reflexivity. }
  destruct (Z.ltb_spec c 65536).
  { destruct (Z.leb_spec 55296 c), (Z.leb_spec c 57343); cbn [andb];
      try discriminate; intros E; apply Some_inj in E; subst bs; right; right; left;
      (split; [lia|]); (split; [lia|]);
      rewrite (lor_small 224 16) by
        (first [reflexivity | split; [apply Z.div_pos; lia | apply Z.div_lt_upper_bound; lia]]);
      reflexivity. }
  destruct (Z.ltb_spec c 1114112); [|discriminate].
  intros E. apply Some_inj in E. subst bs. right. right. right. split; [lia|].
  rewrite (lor_small 240 8) by
    (first [reflexivity | split; [apply Z.div_pos; lia | apply Z.div_lt_upper_bound; lia]]).
  reflexivity.
Qed.

Lemma encode_char_prefix_free (c1 c2 : Z) (b1 b2 r1 r2 : list Z) :
  encode_char c1 = Some b1 -> encode_char c2 = Some b2 ->
  b1 ++ r1 = b2 ++ r2 -> c1 = c2 /\ r1 = r2.
Proof.
  intros E1 E2 H.
  assert (Ec : c1 = c2).
  { pose proof (encode_char_bytes _ _ E1) as B1.
    pose proof (encode_char_bytes _ _ E2) as B2.
    destruct B1 as [[R1 ->] | [[R1 ->] | [(R1 & _ & ->) | [R1 ->]]]];
      destruct B2 as [[R2 ->] | [[R2 ->] | [(R2 & _ & ->) | [R2 ->]]]];
      cbn [List.app] in H; injection H; intros; Z.div_mod_to_equations; lia. }
  subst c2. rewrite E1 in E2. apply Some_inj in E2. subst b2.
  split; [reflexivity|]. apply (app_inv_head _ _ _ H).
Qed.

Lemma encode_utf8_inj (s t : pystr) (bs : list Z) :
  encode_utf8 s = Some bs -> encode_utf8 t = Some bs -> s = t.
Proof.
  revert t bs. induction s as [|c s IH]; intros t bs Hs Ht.
  - cbn [encode_utf8] in Hs. injection Hs as <-.
    destruct t as [|d t]; [reflexivity|]. cbn [encode_utf8] in Ht.
    destruct (encode_char d) as [b|] eqn:Ed; [|discriminate].
    destruct (encode_utf8 t); [|discriminate]. injection Ht as Ht.
    apply encode_char_bytes in Ed.
    destruct Ed as [[_ ->] | [[_ ->] | [(_ & _ & ->) | [_ ->]]]]; discriminate Ht.
  - cbn [encode_utf8] in Hs.
    destruct (encode_char c) as [b|] eqn:Ec; [|discriminate].
    destruct (encode_utf8 s) as [bs'|] eqn:Es; [|discriminate]. injection Hs as <-.
    destruct t as [|d t].
    + cbn [encode_utf8] in Ht. injection Ht as Ht.
      apply encode_char_bytes in Ec.
      destruct Ec as [[_ ->] | [[_ ->] | [(_ & _ & ->) | [_ ->]]]]; discriminate Ht.
    + cbn [encode_utf8] in Ht.
      destruct (encode_char d) as [b'|] eqn:Ed; [|discriminate].
      destruct (encode_utf8 t) as [bt|] eqn:Et; [|discriminate]. injection Ht as Ht.
      destruct (encode_char_prefix_free d c b' b bt bs' Ed Ec Ht) as [-> ->].
      f_equal. apply (IH t bs'); [reflexivity | exact Et].
Qed.

Lemma bytes_leb_antisym (a b : list Z) :
  bytes_leb a b = true -> bytes_leb b a = true -> a = b.
Proof.
  revert b. induction a as [|x a IH]; intros [|y b]; cbn [bytes_leb];
    try congruence.
  destruct (Z.ltb_spec x y), (Z.eqb_spec x y), (Z.ltb_spec y x), (Z.eqb_spec y x);
    cbn [orb andb]; try lia; try congruence.
  intros H1 H2. subst. f_equal. apply IH; assumption.
Qed.

(** ** The orchestrator, further *)

Lemma encode_keys_total (dirs : list pystr) :
  forallb encodable dirs = true ->
  mapM encode_key dirs = Ok (map utf8_key dirs).
Proof.
  induction dirs as [|d dirs IH]; cbn [forallb mapM map]; [reflexivity|].
  intros H. apply andb_true_iff in H. destruct H as [Hd Hr].
  rewrite (IH Hr). unfold encode_key, utf8_key, encodable in *.
  destruct (encode_utf8 d); [reflexivity | discriminate].
Qed.

Lemma encode_keys_fail (dirs : list pystr) :
  forallb encodable dirs = false ->
  mapM encode_key dirs = Raise UnicodeEncodeError.
Proof.
  induction dirs as [|d dirs IH]; cbn [forallb mapM]; [discriminate|].
  unfold encode_key at 1. unfold encodable at 1.
  destruct (encode_utf8 d); [|reflexivity]. cbn [andb bind].
  intros H. rewrite (IH H). reflexivity.
Qed.

Lemma filter_perm {A} (f : A -> bool) (l l' : list A) :
  Permutation l l' -> Permutation (filter f l) (filter f l').
Proof.
  intros H. induction H as [| x l l' _ IH | x y l | l l' l'' _ IH1 _ IH2];
    cbn [filter].
  - constructor.
  - destruct (f x); [constructor|]; exact IH.
  - destruct (f x), (f y); try reflexivity. apply perm_swap.
  - etransitivity; eassumption.
Qed.

Lemma forallb_perm {A} (f : A -> bool) (l l' : list A) :
  Permutation l l' -> forallb f l = forallb f l'.
Proof.
  intros H. induction H as [| x l l' _ IH | x y l | l l' l'' _ IH1 _ IH2];
    cbn [forallb].
  - reflexivity.
  - rewrite IH. reflexivity.
  - destruct (f x), (f y); reflexivity.
  - congruence.
Qed.

Lemma encode_utf8_surrogate (d : pystr) (c : Z) :
  In c d -> is_surrogate c -> encode_utf8 d = None.
Proof.
  unfold is_surrogate. induction d as [|x d IH]; intros Hin Hc; [destruct Hin|].
  cbn [encode_utf8]. destruct Hin as [-> | Hin].
  - unfold encode_char.
    destruct (Z.ltb_spec c 0); [reflexivity|].
    destruct (Z.ltb_spec c 128); [lia|].
    destruct (Z.ltb_spec c 2048); [lia|].
    destruct (Z.ltb_spec c 65536); [|lia].
    destruct (Z.leb_spec 55296 c); [|lia].
    destruct (Z.leb_spec c 57343); [|lia]. reflexivity.
  - rewrite (IH Hin Hc). destruct (encode_char x); reflexivity.
Qed.

Section RunFacts.

Context {PIL : Pillow}.
Variable int_of_str : pystr -> option Z.

(** The sorted folder names as a function of the listing. *)
Lemma atlas_folders_of_listing (w : world) (entries : list (pystr * bool)) :
  listdir w = Some entries ->
  atlas_folders w =
  let dirs := map fst (filter snd entries) in
  if forallb encodable dirs
  then Ok (map snd (sorted_by bytes_leb (map (fun d => (utf8_key d, d)) dirs)))
  else Raise UnicodeEncodeError.
Proof.
  intros H. unfold atlas_folders. rewrite H. cbv zeta.
  destruct (forallb encodable (map fst (filter snd entries))) eqn:E.
  - rewrite (encode_keys_total _ E). cbn [bind]. rewrite combine_map_self. reflexivity.
  - rewrite (encode_keys_fail _ E). reflexivity.
Qed.

Lemma build_atlas_name (atlas_name : pystr) (folder : folder_state) (a : atlas) :
  build_atlas int_of_str atlas_name folder = Ok a -> name a = atlas_name.
Proof.
  unfold build_atlas. destruct (makedirs_ok folder); [|discriminate].
  destruct (load_config int_of_str (config folder)) as [cfg|]; [|discriminate].
  cbn [bind]. unfold compose.
  repeat match goal with
         | |- bind ?r _ = Ok _ -> _ => destruct r; [cbn [bind] | discriminate]
         | |- match ?x with _ => _ end = Ok _ -> _ => destruct x; try discriminate
         end.
  intros H. injection H as <-. reflexivity.
Qed.

Lemma build_all_success (w : world) (names : list pystr) :
  exit_code (build_all int_of_str w names) = 0 ->
  attempted (build_all int_of_str w names) = names /\
  failure (build_all int_of_str w names) = None /\
  Forall2 (fun n a => build_atlas int_of_str n (folder_of w n) = Ok a)
          names (built (build_all int_of_str w names)).
Proof.
  induction names as [|n names IH]; cbn [build_all].
  - intros _. repeat split. constructor.
  - destruct (build_atlas int_of_str n (folder_of w n)) as [a|e] eqn:E;
      cbn [exit_code attempted failure built]; [|discriminate].
    intros H. destruct (IH H) as (Ha & Hf & Hb).
    rewrite Ha. repeat split; [exact Hf|]. constructor; assumption.
Qed.

(** X11.  A run that exits with 0 has built every sub-directory once, in
    the sorted order, and reported no failure: the atlases written are those
    of [build_atlas] on each folder, named after the folders. *)
Theorem main_success (w : world) (names : list pystr)
  (Hd : src_is_dir w = true) (Hl : atlas_folders w = Ok names)
  (H0 : exit_code (main int_of_str w) = 0) :
  attempted (main int_of_str w) = names /\
  failure (main int_of_str w) = None /\
  map name (built (main int_of_str w)) = names /\
  Forall2 (fun n a => build_atlas int_of_str n (folder_of w n) = Ok a)
          names (built (main int_of_str w)).
Proof.
  rewrite (main_build_all int_of_str w names Hd Hl) in *.
  destruct (build_all_success w names H0) as (Ha & Hf & Hb).
  split; [exact Ha|]. split; [exact Hf|]. split; [|exact Hb].
  clear - Hb. induction Hb as [|n a names bs Hn _ IH]; [reflexivity|].
  cbn [map]. rewrite IH, (build_atlas_name _ _ _ Hn). reflexivity.
Qed.

(** X12.  The build order does not depend on the order in which the
    directory is listed: two listings with the same entries give the same
    sorted folder names (or both fail to encode a name). *)
Theorem atlas_folders_listing_order (w w' : world)
  (entries entries' : list (pystr * bool))
  (Hw : listdir w = Some entries) (Hw' : listdir w' = Some entries')
  (Hp : Permutation entries entries') :
  atlas_folders w = atlas_folders w'.
Proof.
  rewrite (atlas_folders_of_listing w entries Hw),
    (atlas_folders_of_listing w' entries' Hw'). cbv zeta.
  assert (Hdirs : Permutation (map fst (filter snd entries))
                              (map fst (filter snd entries')))
    by (apply Permutation_map, filter_perm; exact Hp).
  rewrite <- (forallb_perm encodable _ _ Hdirs).
  destruct (forallb encodable (map fst (filter snd entries))) eqn:E; [|reflexivity].
  f_equal. f_equal.
  apply (sorted_perm_eq (keyed_le bytes_leb)).
  - apply sorted_by_sorted; [apply bytes_leb_total | apply bytes_leb_trans].
  - apply sorted_by_sorted; [apply bytes_leb_total | apply bytes_leb_trans].
  - rewrite !sorted_by_perm. apply Permutation_map. exact Hdirs.
  - intros [k d] [k' d'] Hin Hin' Hle Hle'.
    apply (Permutation_in _ (sorted_by_perm bytes_leb _)) in Hin, Hin'.
    apply in_map_iff in Hin, Hin'.
    destruct Hin as [a [Ea Ha]], Hin' as [b [Eb Hb]].
    injection Ea as <- <-. injection Eb as <- <-.
    unfold keyed_le in Hle, Hle'. cbn [fst] in Hle, Hle'.
    pose proof (bytes_leb_antisym _ _ Hle Hle') as Ek.
    rewrite forallb_forall in E.
    pose proof (E a Ha) as Xa. pose proof (E b Hb) as Xb.
    unfold encodable, utf8_key in *.
    destruct (encode_utf8 a) as [ka|] eqn:Ka; [|discriminate].
    destruct (encode_utf8 b) as [kb|] eqn:Kb; [|discriminate].
    subst kb. rewrite (encode_utf8_inj a b ka Ka Kb). reflexivity.
Qed.

(** X13.  One sub-directory whose name holds a surrogate code point stops
    the run before anything is built: the name cannot be encoded for the
    sort, and [main] exits with 1. *)
Theorem main_unencodable_name (w : world) (entries : list (pystr * bool))
  (d : pystr) (c : Z)
  (Hd : src_is_dir w = true) (Hw : listdir w = Some entries)
  (Hin : In (d, true) entries) (Hc : In c d) (Hs : is_surrogate c) :
  atlas_folders w = Raise UnicodeEncodeError /\
  exit_code (main int_of_str w) = 1 /\
  attempted (main int_of_str w) = [] /\
  built (main int_of_str w) = [].
Proof.
  assert (Hl : atlas_folders w = Raise UnicodeEncodeError).
  { rewrite (atlas_folders_of_listing w entries Hw). cbv zeta.
    destruct (forallb encodable (map fst (filter snd entries))) eqn:E; [|reflexivity].
    exfalso. rewrite forallb_forall in E.
    assert (Hx : encodable d = true).
    { apply E. apply in_map_iff. exists (d, true). split; [reflexivity|].
      apply filter_In. split; [exact Hin | reflexivity]. }
    unfold encodable in Hx. rewrite (encode_utf8_surrogate d c Hc Hs) in Hx.
    discriminate Hx. }
  split; [exact Hl|]. unfold main. rewrite Hd, Hl. repeat split.
Qed.

End RunFacts.

Lemma main_success_witness :
  attempted (main no_literal (sample_world [py "ui"; py "fx"])) = [py "fx"; py "ui"].
Proof.
  apply (main_success (PIL := size_only) no_literal
           (sample_world [py "ui"; py "fx"]) [py "fx"; py "ui"] eq_refl eq_refl).
  vm_compute. reflexivity.
Defined.

Lemma atlas_folders_listing_order_witness :
  atlas_folders (sample_world [py "b"; py "A"; [228]])
  = atlas_folders (sample_world [[228]; py "b"; py "A"]).
Proof.
  apply (atlas_folders_listing_order
           (sample_world [py "b"; py "A"; [228]])
           (sample_world [[228]; py "b"; py "A"]) _ _ eq_refl eq_refl).
  cbn [map]. apply perm_skip. apply Permutation_sym.
  apply (Permutation_cons_app [(py "b", true); (py "A", true)] [] ([228], true)).
  rewrite app_nil_r. apply Permutation_refl.
Defined.

Lemma main_unencodable_name_witness :
  exit_code (main no_literal (sample_world [py "ui"; [100; 56448]])) = 1.
Proof.
  apply (main_unencodable_name (PIL := size_only) no_literal
           (sample_world [py "ui"; [100; 56448]]) _ [100; 56448] 56448
           eq_refl eq_refl).
  - right. right. left. reflexivity.
  - right. left. reflexivity.
  - unfold is_surrogate. lia.
Defined.

(** ** Checks that cannot fail after normalisation *)

Lemma avoids_ok {A} (P : exn -> Prop) (a : A) : avoids P (Ok a).
Proof. intros e H. discriminate H. Qed.

Lemma avoids_raise {A} (P : exn -> Prop) (e : exn) : ~ P e -> avoids P (@Raise A e).
Proof. intros H e' E. injection E as <-. exact H. Qed.

Lemma avoids_bind {A B} (P : exn -> Prop) (r : result A) (k : A -> result B) :
  avoids P r -> (forall a, r = Ok a -> avoids P (k a)) -> avoids P (bind r k).
Proof.
  intros Hr Hk. destruct r as [a|e]; cbn [bind].
  - apply Hk. reflexivity.
  - intros e' E. injection E as <-. apply (Hr e). reflexivity.
Qed.

Lemma avoids_mapM {A B} (P : exn -> Prop) (f : A -> result B) (l : list A) :
  (forall a, In a l -> avoids P (f a)) -> avoids P (mapM f l).
Proof.
  induction l as [|a l IH]; intros H; cbn [mapM]; [apply avoids_ok|].
  apply avoids_bind; [apply H; left; reflexivity|]. intros b _.
  apply avoids_bind; [apply IH; intros x Hx; apply H; right; exact Hx|].
  intros bs _. apply avoids_ok.
Qed.

Section TypeChecks.

Variable int_of_str : pystr -> option Z.

Lemma avoids_py_int (v : value) : avoids type_check_error (py_int int_of_str v).
Proof.
  destruct v as [| b | z | [q | n |] | s | l | d]; cbn [py_int];
    try apply avoids_ok; try (apply avoids_raise; exact (fun x => x)).
  destruct (int_of_str s); [apply avoids_ok | apply avoids_raise; exact (fun x => x)].
Qed.

Lemma avoids_dict_index (d : dict) (k : pystr) :
  avoids type_check_error (dict_index d k).
Proof.
  unfold dict_index. destruct (dict_find d k);
    [apply avoids_ok | apply avoids_raise; exact (fun x => x)].
Qed.

Ltac avoids_step :=
  first [ apply avoids_ok
        | apply avoids_py_int
        | apply avoids_dict_index
        | (apply avoids_raise; exact (fun x => x))
        | (apply avoids_bind; [|intros ? _]) ].

Lemma avoids_normalize_slot (s : value) :
  avoids type_check_error (normalize_slot int_of_str s).
Proof.
  destruct s as [| b | z | f | str | l | d]; cbn [normalize_slot];
    try (apply avoids_raise; exact (fun x => x)).
  apply avoids_bind.
  { destruct (dict_has d (py "index")); repeat avoids_step. }
  intros ? _. repeat avoids_step.
Qed.

(** On a configuration in normal form the validator's checks on types
    pass, so it reports none of them. *)
Lemma avoids_validate_normalized (cw ch : Z) (sl : list value) :
  Forall normalized_slot sl ->
  avoids type_check_error (validate_slots (make_cfg cw ch sl)).
Proof.
  intros Hsl e. rewrite validate_slots_first_failure. unfold reported.
  destruct (first_failure code_order (make_cfg cw ch sl)) as [chk|] eqn:E;
    [|discriminate].
  intros He. injection He as <-.
  apply first_failure_some in E. destruct E as [Hf Hin].
  destruct chk as [[]|k c]; cbn [check_message type_check_error];
    try exact (fun x => x).
  - discriminate Hf.
  - unfold all_checks in Hin. apply in_app_or in Hin.
    destruct Hin as [Hin | Hin].
    { apply in_map_iff in Hin. destruct Hin as [g [Eg _]]. discriminate Eg. }
    apply in_flat_map in Hin. destruct Hin as [k' [Hk Hin]].
    apply in_map_iff in Hin. destruct Hin as [c' [Ec _]]. injection Ec as -> ->.
    apply in_seq in Hk.
    change (slot_list (make_cfg cw ch sl)) with sl in *.
    assert (Hn : normalized_slot (nth k sl VNone)).
    { rewrite Forall_forall in Hsl. apply Hsl. apply nth_In. lia. }
    cbn [check_passes] in Hf.
    change (slot_list (make_cfg cw ch sl)) with sl in Hf.
    destruct Hn as (iv & x & y & w & h & f & En & _).
    rewrite En in Hf. unfold slot_message.
    destruct c; try exact (fun x => x); try discriminate Hf.
Qed.

Lemma generate_grid_slots_normalized (cols rows sw sh : Z) :
  Forall normalized_slot (generate_grid_slots cols rows sw sh).
Proof.
  apply Forall_forall. intros s Hs. unfold generate_grid_slots in Hs.
  apply in_map_iff in Hs. destruct Hs as [i [<- _]]. unfold grid_slot.
  do 6 eexists. split; [reflexivity|]. right. eexists. reflexivity.
Qed.

Lemma avoids_load_grid (d : dict) :
  avoids (fun e => type_check_error e \/ e = ValueError CanvasTooLarge)
         (load_grid int_of_str d).
Proof.
  assert (Hpy : forall v, avoids (fun e => type_check_error e \/ e = ValueError CanvasTooLarge)
                            (py_int int_of_str v)).
  { intros v e H [Ht | ->].
    - apply (avoids_py_int v e H Ht).
    - destruct v as [| b | z | [q | n |] | s | l | d0]; cbn [py_int] in H;
        try discriminate H. destruct (int_of_str s); discriminate H. }
  unfold load_grid.
  repeat (apply avoids_bind; [apply Hpy | intros ? _]).
  rewrite !Z.gtb_ltb.
  destruct (Z.ltb_spec MAX_CANVAS a3) as [Hx|Hx],
           (Z.ltb_spec MAX_CANVAS a4) as [Hy|Hy]; cbn [orb];
    try (apply avoids_raise; intros [[] | E]; discriminate E).
  apply avoids_bind; [|intros ? _; apply avoids_ok].
  intros e Hr [Ht | ->].
  - apply (avoids_validate_normalized a3 a4 _
             (generate_grid_slots_normalized a a0 a1 a2) e Hr Ht).
  - rewrite validate_slots_first_failure in Hr. unfold reported in Hr.
    destruct (first_failure code_order _) as [chk|] eqn:E; [|discriminate Hr].
    apply first_failure_some in E. destruct E as [Hf _].
    destruct chk as [[]|k []]; cbn [check_message] in Hr; unfold slot_message in Hr;
      try discriminate Hr.
    + cbn [check_passes] in Hf.
      change (canvas_dims (make_cfg a3 a4 (generate_grid_slots a a0 a1 a2)))
        with (Some (a3, a4)) in Hf.
      destruct (Z.leb_spec a3 MAX_CANVAS), (Z.leb_spec a4 MAX_CANVAS);
        cbn [andb] in Hf; try discriminate Hf; lia.
Qed.

Lemma avoids_load_explicit (d : dict) (sl : list value) :
  avoids type_check_error (load_explicit int_of_str d sl).
Proof.
  unfold load_explicit.
  destruct (mapM (normalize_slot int_of_str) sl) as [nsl|e0] eqn:En.
  - cbn [bind]. repeat (apply avoids_bind; [apply avoids_py_int | intros ? _]).
    apply avoids_bind; [|intros ? _; apply avoids_ok].
    apply avoids_validate_normalized.
    apply mapM_Forall2 in En. clear - En.
    induction En as [|s s' sl nsl Hs _ IH]; constructor; [|exact IH].
    apply (normalize_slot_shape int_of_str _ _ Hs).
  - cbn [bind]. intros e H. injection H as <-.
    assert (Hm : avoids type_check_error (mapM (normalize_slot int_of_str) sl))
      by (apply avoids_mapM; intros s _; apply avoids_normalize_slot).
    rewrite En in Hm. apply (Hm e0 eq_refl).
Qed.

(** X14.  After normalisation the validator's checks on types cannot fail:
    [load_config] never raises "canvas_width and canvas_height must be
    integers", "each slot entry must be an object/dict" or "slot ...
    property ... must be integer"; and in grid mode it never raises the
    validator's "canvas dimensions must be <= 2048", the oversized canvas
    being reported by the quick check before the grid is generated. *)
Theorem load_config_type_checks_unreachable (c : config_file) (e : exn)
  (H : load_config int_of_str c = Raise e) :
  ~ type_check_error e /\
  (forall d, c = Parsed (VDict d) ->
     (forall sl, dict_find d (py "slots") <> Some (VList sl)) ->
     e <> ValueError CanvasTooLarge).
Proof.
  destruct c as [| | raw]; cbn [load_config] in H; try discriminate H.
  { injection H as <-. split; [exact (fun x => x)|]. intros d Ed. discriminate Ed. }
  destruct raw as [| b | z | f | str | l | d];
    try (injection H as <-; split; [exact (fun x => x)|]; intros d0 Ed; discriminate Ed).
  assert (Hgrid : load_grid int_of_str d = Raise e ->
                  ~ type_check_error e /\ e <> ValueError CanvasTooLarge).
  { intros Hg. pose proof (avoids_load_grid d e Hg) as Ha. tauto. }
  destruct (dict_find d (py "slots")) as [[| b | z | f | str | sl | d']|] eqn:Es;
    try (destruct (Hgrid H) as [H1 H2]; split; [exact H1 | intros; exact H2]).
  split.
  - apply (avoids_load_explicit d sl e H).
  - intros d0 Ed Hns. injection Ed as <-. exfalso. apply (Hns sl). exact Es.
Qed.

End TypeChecks.

Lemma load_config_type_checks_unreachable_witness :
  load_config no_literal missing_x_config = Raise (KeyError (py "x")) /\
  ~ type_check_error (KeyError (py "x")).
Proof.
  split; [reflexivity|].
  exact (proj1 (load_config_type_checks_unreachable no_literal missing_x_config
                  (KeyError (py "x")) eq_refl)).
Defined.

Section PlaceholderFacts.

Context {PIL : Pillow}.
Variable int_of_str : pystr -> option Z.

(** X15.  A [placeholder.png] that is there but does not open fails the
    atlas with a [RuntimeError], whether or not a slot would have used it:
    it is opened before the first slot is looked at. *)
Theorem build_atlas_placeholder_unreadable (atlas_name : pystr)
  (folder : folder_state) (cfg : dict)
  (Hm : makedirs_ok folder = true)
  (Hc : load_config int_of_str (config folder) = Ok cfg)
  (Hp : file_at folder (py "placeholder.png") = Unreadable) :
  build_atlas int_of_str atlas_name folder
  = Raise (RuntimeError PlaceholderUnreadable).
Proof.
  unfold build_atlas. rewrite Hm, Hc. cbn [bind].
  pose proof (load_config_validated _ _ _ Hc) as Hv.
  apply validate_slots_ok in Hv.
  destruct Hv as (cw & ch & sl & Ecw & Ech & _ & _ & Esl & _).
  rewrite (compose_accepted int_of_str atlas_name folder cfg cw ch sl Ecw Ech Esl).
  rewrite Hp. reflexivity.
Qed.

End PlaceholderFacts.

Lemma build_atlas_placeholder_unreadable_witness :
  build_atlas no_literal (py "ui") bad_placeholder_folder
  = Raise (RuntimeError PlaceholderUnreadable).
Proof.
  exact (build_atlas_placeholder_unreadable (PIL := size_only) no_literal
           (py "ui") bad_placeholder_folder default_cfg eq_refl eq_refl eq_refl).
Defined.
